(** * GrowthMap: sequential module unlocking

    A shallow embedding of the PL/pgSQL functions of the two schema design
    documents of the repository:

    - [database-design.md]: [get_module_status] and the correlated-subquery
      [get_user_modules] (module [DesignV1] below);
    - the revised design document: the stored-status [get_user_modules] and
      the transactional [complete_module] (module [DesignV2] below). The
      revised document has no trigger: [complete_module] is the only
      writer of [user_module_progress];
    - the trigger [handle_module_completion] of [database-design.md]
      (module [Triggers]), the view [user_modules_with_status] and the
      materialized view [user_modules_status_cache] of both documents
      (module [Views]), and the SELECT policies of row level security
      (module [Rls]).

    Tables are lists of rows; the PRIMARY KEY and UNIQUE constraints of the
    schema are predicates on those lists ([pk_modules], [uq_order_index],
    [uq_user_module]) and appear as hypotheses where a result needs them.
    SQL NULL is [None], SQL conditions are three-valued, an SQL error is the
    [Raise] branch of [Sql.result]. *)

From Stdlib Require Import ZArith NArith List String Bool Lia.
From Stdlib Require Import Sorted Permutation.
Import ListNotations.
Open Scope Z_scope.

(** ** SQL values: NULL, three-valued conditions, int4, errors *)

Module Sql.

(** Errors PostgreSQL can raise in the modelled statements. *)
Inductive error : Type :=
| IntegerOutOfRange      (* SQLSTATE 22003, int4 addition overflow *)
| CardinalityViolation.  (* SQLSTATE 21000, scalar subquery with several rows *)

Inductive result (A : Type) : Type :=
| Ok (a : A)
| Raise (e : error).
Arguments Ok {A} a.
Arguments Raise {A} e.

Definition bind {A B : Type} (c : result A) (k : A -> result B) : result B :=
  match c with
  | Ok a => k a
  | Raise e => Raise e
  end.

(** INTEGER is PostgreSQL's int4. *)
Definition int4_min : Z := -2147483648.
Definition int4_max : Z := 2147483647.

(** [x + y] on int4: no wrap-around, the sum is an error out of range. *)
Definition int4pl (x y : Z) : result Z :=
  let s := x + y in
  if (int4_min <=? s) && (s <=? int4_max) then Ok s else Raise IntegerOutOfRange.

(** A condition is TRUE, FALSE or NULL. *)
Definition cond : Type := option bool.

Definition eq3 {A : Type} (eqb : A -> A -> bool) (x y : option A) : cond :=
  match x, y with
  | Some a, Some b => Some (eqb a b)
  | _, _ => None
  end.

Definition neq3 {A : Type} (eqb : A -> A -> bool) (x y : option A) : cond :=
  option_map negb (eq3 eqb x y).

Definition lt3 (x y : option Z) : cond :=
  match x, y with
  | Some a, Some b => Some (a <? b)
  | _, _ => None
  end.

Definition is_null {A : Type} (x : option A) : cond :=
  match x with
  | None => Some true
  | Some _ => Some false
  end.

Definition is_not_null {A : Type} (x : option A) : cond :=
  option_map negb (is_null x).

Definition and3 (p q : cond) : cond :=
  match p, q with
  | Some false, _ | _, Some false => Some false
  | Some true, Some true => Some true
  | _, _ => None
  end.

Definition or3 (p q : cond) : cond :=
  match p, q with
  | Some true, _ | _, Some true => Some true
  | Some false, Some false => Some false
  | _, _ => None
  end.

(** IF, WHERE, ON and CASE WHEN take a branch or keep a row only on TRUE. *)
Definition holds (p : cond) : bool :=
  match p with
  | Some true => true
  | _ => false
  end.

Definition coalesce {A : Type} (x : option A) (d : A) : A :=
  match x with
  | Some a => a
  | None => d
  end.

(** [SELECT e INTO v FROM ...] without STRICT, and [LIMIT 1]: the first
    row, NULL when there is none. *)
Definition select_into {A : Type} (rows : list A) : option A := hd_error rows.

(** A scalar subquery [(SELECT e FROM ...)]: NULL on no row, the value on
    one row, an error as soon as a second row is produced. The select
    list is evaluated row by row, so its own errors come first. *)
Definition scalar_subquery {R A : Type} (e : R -> result A) (rows : list R)
  : result (option A) :=
  match rows with
  | [] => Ok None
  | r :: rest =>
      bind (e r) (fun v =>
      match rest with
      | [] => Ok (Some v)
      | r' :: _ => bind (e r') (fun _ => Raise CardinalityViolation)
      end)
  end.

Definition inner_join {A B : Type} (on : A -> B -> bool)
           (l : list A) (r : list B) : list (A * B) :=
  flat_map (fun a => map (pair a) (filter (on a) r)) l.

(** [l LEFT JOIN r ON on]: a row of [l] without a partner is kept once,
    with NULLs on the right. *)
Definition left_join {A B : Type} (on : A -> B -> bool)
           (l : list A) (r : list B) : list (A * option B) :=
  flat_map (fun a =>
              match filter (on a) r with
              | [] => [(a, None)]
              | bs => map (fun b => (a, Some b)) bs
              end) l.

(** [ORDER BY key] ascending, as a stable insertion sort. *)
Fixpoint insert_by {A : Type} (key : A -> Z) (x : A) (l : list A) : list A :=
  match l with
  | [] => [x]
  | y :: l' => if key x <=? key y then x :: l else y :: insert_by key x l'
  end.

Definition order_by {A : Type} (key : A -> Z) (l : list A) : list A :=
  fold_right (insert_by key) [] l.

End Sql.

Import Sql.

Declare Scope sql_scope.
Delimit Scope sql_scope with sql.
Notation "x <- c ;; k" := (bind c (fun x => k))
  (at level 61, c at next level, right associativity) : sql_scope.

(** ** Schema *)

(** [status VARCHAR(20) CHECK (status IN ('done', 'active', 'locked'))],
    the [ModuleStatus] of [components/module-card/types.ts]. *)
Inductive ModuleStatus : Type := done | active | locked.

Definition status_eqb (a b : ModuleStatus) : bool :=
  match a, b with
  | done, done | active, active | locked, locked => true
  | _, _ => false
  end.

(** [UUID]: a 128-bit value. *)
Definition UUID : Type := N.

(** [TIMESTAMP WITH TIME ZONE]: microseconds since the epoch. *)
Definition timestamptz : Type := Z.

(** Table [modules]. The columns [created_at] and [updated_at], which no
    function reads or writes, are left out. *)
Module modules.
Record row : Type := mk
  { id : Z;                       (* SERIAL PRIMARY KEY *)
    title : string;               (* VARCHAR(255) NOT NULL *)
    description : option string;  (* TEXT *)
    order_index : Z }.            (* INTEGER NOT NULL UNIQUE *)
End modules.

(** Table [user_module_progress]. The surrogate key [id SERIAL] is left
    out: rows are identified by [(user_id, module_id)] everywhere. *)
Module ump.
Record row : Type := mk
  { user_id : UUID;                      (* NOT NULL *)
    module_id : Z;                       (* NOT NULL REFERENCES modules(id) *)
    status : ModuleStatus;               (* NOT NULL DEFAULT 'locked' *)
    completed_at : option timestamptz;
    started_at : option timestamptz;
    created_at : timestamptz;            (* DEFAULT NOW() *)
    updated_at : timestamptz }.          (* DEFAULT NOW() *)
End ump.

(** The row type both [get_user_modules] functions return. *)
Module um.
Record row : Type := mk
  { id : Z;
    title : string;
    description : option string;
    order_index : Z;
    status : ModuleStatus;
    completed_at : option timestamptz;
    started_at : option timestamptz }.
End um.

Record database : Type := mkdb
  { db_modules : list modules.row;
    db_progress : list ump.row }.

(** The constraints of the schema. *)
Definition pk_modules (ms : list modules.row) : Prop :=
  NoDup (map modules.id ms).

Definition uq_order_index (ms : list modules.row) : Prop :=
  NoDup (map modules.order_index ms).

Definition uq_user_module (ps : list ump.row) : Prop :=
  NoDup (map (fun r => (ump.user_id r, ump.module_id r)) ps).

(** [ump.user_id = p_user_id AND ump.module_id = p_module_id] on NOT NULL
    columns and non-NULL arguments. *)
Definition is_row_of (p_user_id : UUID) (p_module_id : Z) (r : ump.row) : bool :=
  (ump.user_id r =? p_user_id)%N && (ump.module_id r =? p_module_id).

(** ** database-design.md *)

Module DesignV1.

(** [get_module_status(p_user_id, p_module_id)], at non-NULL arguments. *)
Definition get_module_status (db : database) (p_user_id : UUID) (p_module_id : Z)
  : ModuleStatus :=
  let v_order_index :=
    select_into (map modules.order_index
                     (filter (fun m => modules.id m =? p_module_id) (db_modules db))) in
  let v_current_status :=
    select_into (map ump.status
                     (filter (is_row_of p_user_id p_module_id) (db_progress db))) in
  if holds (eq3 status_eqb v_current_status (Some done)) then done
  else if holds (eq3 Z.eqb v_order_index (Some 1)) then active
  else
    let v_previous_done_count :=
      List.length
        (filter (fun '(r, m) =>
                   holds (and3 (and3 (Some (ump.user_id r =? p_user_id)%N)
                                     (Some (status_eqb (ump.status r) done)))
                               (lt3 (Some (modules.order_index m)) v_order_index)))
                (inner_join (fun r m => modules.id m =? ump.module_id r)
                            (db_progress db) (db_modules db))) in
    let v_total_previous_modules :=
      List.length
        (filter (fun m => holds (lt3 (Some (modules.order_index m)) v_order_index))
                (db_modules db)) in
    if Nat.eqb v_previous_done_count v_total_previous_modules then active
    else locked.

(** The CASE expression of the CTE [module_statuses], for one row [m] of
    [modules] and its LEFT JOIN partner [r] (NULL columns when [None]). *)
Definition module_statuses_status (db : database) (p_user_id : UUID)
           (m : modules.row) (r : option ump.row) : ModuleStatus :=
  if holds (eq3 status_eqb (option_map ump.status r) (Some done)) then done
  else if holds (Some (modules.order_index m =? 1)) then active
  else if
    Nat.eqb
      (List.length
         (filter (fun '(ump2, m2) =>
                    holds (and3 (and3 (Some (ump.user_id ump2 =? p_user_id)%N)
                                      (Some (status_eqb (ump.status ump2) done)))
                                (Some (modules.order_index m2 <? modules.order_index m))))
                 (inner_join (fun ump2 m2 => modules.id m2 =? ump.module_id ump2)
                             (db_progress db) (db_modules db))))
      (List.length
         (filter (fun m3 => holds (Some (modules.order_index m3 <? modules.order_index m)))
                 (db_modules db)))
  then active
  else locked.

(** [get_user_modules(p_user_id)], the variant with the correlated
    subqueries. *)
Definition get_user_modules (db : database) (p_user_id : UUID) : list um.row :=
  map (fun '(m, r) =>
         um.mk (modules.id m) (modules.title m) (modules.description m)
               (modules.order_index m)
               (module_statuses_status db p_user_id m r)
               (match r with Some x => ump.completed_at x | None => None end)
               (match r with Some x => ump.started_at x | None => None end))
      (order_by (fun mr => modules.order_index (fst mr))
                (left_join (fun m r => (modules.id m =? ump.module_id r)
                                       && (ump.user_id r =? p_user_id)%N)
                           (db_modules db) (db_progress db))).

End DesignV1.

(** ** The revised design document *)

Module DesignV2.

(** [get_user_modules(p_user_id)], the variant that reads the stored
    status: [COALESCE(ump.status, 'locked')]. *)
Definition get_user_modules (db : database) (p_user_id : UUID) : list um.row :=
  map (fun '(m, r) =>
         um.mk (modules.id m) (modules.title m) (modules.description m)
               (modules.order_index m)
               (coalesce (option_map ump.status r) locked)
               (match r with Some x => ump.completed_at x | None => None end)
               (match r with Some x => ump.started_at x | None => None end))
      (order_by (fun mr => modules.order_index (fst mr))
                (left_join (fun m r => (modules.id m =? ump.module_id r)
                                       && (ump.user_id r =? p_user_id)%N)
                           (db_modules db) (db_progress db))).

(** [SELECT status INTO v_current_status FROM user_module_progress
     WHERE user_id = p_user_id AND module_id = p_module_id]. *)
Definition select_current_status (db : database) (p_user_id : UUID) (p_module_id : Z)
  : option ModuleStatus :=
  select_into (map ump.status
                   (filter (is_row_of p_user_id p_module_id) (db_progress db))).

(** Step (a): [UPDATE user_module_progress SET status = 'done',
    completed_at = NOW(), updated_at = NOW() WHERE user_id = p_user_id AND
    module_id = p_module_id]. *)
Definition set_done (now : timestamptz) (r : ump.row) : ump.row :=
  ump.mk (ump.user_id r) (ump.module_id r) done (Some now) (ump.started_at r)
         (ump.created_at r) now.

Definition update_done (p_user_id : UUID) (p_module_id : Z) (now : timestamptz)
           (ps : list ump.row) : list ump.row :=
  map (fun r => if is_row_of p_user_id p_module_id r then set_done now r else r) ps.

(** Step (b): [SELECT id INTO v_next_module_id FROM modules WHERE
    order_index = (SELECT order_index + 1 FROM modules WHERE id =
    p_module_id) LIMIT 1]. *)
Definition select_next_module_id (ms : list modules.row) (p_module_id : Z)
  : result (option Z) :=
  (next_index <- scalar_subquery (fun m => int4pl (modules.order_index m) 1)
                                 (filter (fun m => modules.id m =? p_module_id) ms) ;;
   Ok (select_into
         (map modules.id
              (filter (fun m => holds (eq3 Z.eqb (Some (modules.order_index m)) next_index))
                      ms))))%sql.

(** Step (c): [INSERT INTO user_module_progress (user_id, module_id, status,
    started_at) VALUES (p_user_id, v_next_module_id, 'active', NOW())
    ON CONFLICT (user_id, module_id) DO UPDATE SET status = 'active',
    started_at = COALESCE(user_module_progress.started_at, NOW()),
    updated_at = NOW() WHERE user_module_progress.status != 'done']. *)
Definition set_active (now : timestamptz) (r : ump.row) : ump.row :=
  ump.mk (ump.user_id r) (ump.module_id r) active (ump.completed_at r)
         (Some (coalesce (ump.started_at r) now)) (ump.created_at r) now.

Definition insert_active (p_user_id : UUID) (v_next_module_id : Z) (now : timestamptz)
           (ps : list ump.row) : list ump.row :=
  if existsb (is_row_of p_user_id v_next_module_id) ps then
    map (fun r => if is_row_of p_user_id v_next_module_id r
                     && negb (status_eqb (ump.status r) done)
                  then set_active now r else r) ps
  else
    ps ++ [ump.mk p_user_id v_next_module_id active None (Some now) now now].

(** The body of [complete_module(p_user_id, p_module_id)], on the working
    state of its transaction; [now] is the value of [NOW()], fixed for the
    whole transaction. [IF v_next_module_id IS NOT NULL] is the match on
    the looked-up successor. *)
Definition complete_module (db : database) (p_user_id : UUID) (p_module_id : Z)
           (now : timestamptz) : result database :=
  let v_current_status := select_current_status db p_user_id p_module_id in
  if holds (or3 (is_null v_current_status)
                (neq3 status_eqb v_current_status (Some active)))
  then Ok db
  else
    let db_a := mkdb (db_modules db)
                     (update_done p_user_id p_module_id now (db_progress db)) in
    (v_next_module_id <- select_next_module_id (db_modules db_a) p_module_id ;;
     match v_next_module_id with
     | Some next =>
         Ok (mkdb (db_modules db_a)
                  (insert_active p_user_id next now (db_progress db_a)))
     | None => Ok db_a
     end)%sql.

(** [completeModule(userId, moduleId)] of the client: one [supabase.rpc]
    call, which runs the function in a transaction of its own. A raised
    error aborts the transaction, so the stored state is the one before
    the call, and the client throws the error ("if an error occurs, the
    transaction is rolled back and the state stays consistent", in the
    words of the document). *)
Definition completeModule (db : database) (userId : UUID) (moduleId : Z)
           (now : timestamptz) : database * option error :=
  match complete_module db userId moduleId now with
  | Ok db' => (db', None)
  | Raise e => (db, Some e)
  end.

(** A sequence of client calls, each with its own [NOW()]. *)
Definition call : Type := (UUID * Z * timestamptz)%type.

Definition run (db : database) (calls : list call) : database :=
  fold_left (fun d '(u, m, now) => fst (completeModule d u m now)) calls db.

End DesignV2.

(** ** The seeded catalog of the migration script *)

Definition seed_modules : list modules.row :=
  [ modules.mk 1 "Welcome Journey"%string None 1;
    modules.mk 2 "Переключение на себя"%string None 2;
    modules.mk 3 "Источник вдохновения"%string None 3;
    modules.mk 4 "Пространство идей"%string None 4;
    modules.mk 5 "Финальный тест"%string None 5 ].

Definition seed_database : database := mkdb seed_modules [].

(** ** Example states *)

Definition user_a : UUID := 7%N.

(** A user whose first module has been opened at time 10. *)
Definition db_started : database :=
  mkdb seed_modules [ump.mk user_a 1 active None (Some 10) 10 10].

(** The first module is still active although the second is recorded as
    done at time 5: the successor of module 1 is already completed. *)
Definition db_successor_done : database :=
  mkdb seed_modules
       [ump.mk user_a 1 active None (Some 1) 1 1;
        ump.mk user_a 2 done (Some 5) (Some 2) 2 5].

(** The user is on the last module of the seeded catalog. *)
Definition db_last_active : database :=
  mkdb seed_modules
       [ump.mk user_a 4 done (Some 40) (Some 30) 30 40;
        ump.mk user_a 5 active None (Some 40) 40 40].

(** A two-module catalog whose last module sits at the largest INTEGER,
    active for the user. *)
Definition db_last_at_int4_max : database :=
  mkdb [modules.mk 1 "Welcome Journey"%string None 1;
        modules.mk 2 "Final test"%string None 2147483647]
       [ump.mk user_a 1 done (Some 20) (Some 10) 10 20;
        ump.mk user_a 2 active None (Some 20) 20 20].

(** ** Predicates of the specification *)

(** The user has no progress record at all. *)
Definition no_rows_of (u : UUID) (ps : list ump.row) : Prop :=
  forall r, In r ps -> ump.user_id r <> u.

(** The modules a projection reports as 'done' form a prefix of the
    catalog order: below a 'done' module everything is 'done'. *)
Definition done_prefix (rows : list um.row) : Prop :=
  forall x y, In x rows -> In y rows ->
              um.order_index x < um.order_index y ->
              um.status y = done -> um.status x = done.

(** The ON condition of both [get_user_modules] joins. *)
Definition on_user (p_user_id : UUID) (m : modules.row) (r : ump.row) : bool :=
  (modules.id m =? ump.module_id r) && (ump.user_id r =? p_user_id)%N.

(** The third module is recorded as 'active' although nothing before it
    is done. *)
Definition db_third_active : database :=
  mkdb seed_modules [ump.mk user_a 3 active None (Some 10) 10 10].

(** The stored progression of a user is consistent when every record
    that is 'active' or 'done' belongs to a module all of whose
    predecessors in catalog order are recorded as 'done'. *)
Definition progression_ok (db : database) (u : UUID) : Prop :=
  forall r m m',
    In r (db_progress db) -> ump.user_id r = u -> ump.status r <> locked ->
    In m (db_modules db) -> modules.id m = ump.module_id r ->
    In m' (db_modules db) -> modules.order_index m' < modules.order_index m ->
    DesignV2.select_current_status db u (modules.id m') = Some done.

(** A catalog with a gap in its positions. *)
Definition db_gap : database :=
  mkdb [modules.mk 1 "Welcome Journey"%string None 1;
        modules.mk 2 "Final test"%string None 3]
       [ump.mk user_a 1 active None (Some 10) 10 10].

(** ** database-design.md: the trigger *)

Module Triggers.

(** What a row-level trigger is fired with: [OLD] (NULL for an INSERT) and
    [NEW]. *)
Definition row_event : Type := (option ump.row * ump.row)%type.

(** The rows the UPDATE of step (a) changes, as an AFTER UPDATE trigger
    sees them. *)
Definition update_done_events (p_user_id : UUID) (p_module_id : Z)
           (now : timestamptz) (ps : list ump.row) : list row_event :=
  map (fun r => (Some r, DesignV2.set_done now r))
      (filter (is_row_of p_user_id p_module_id) ps).

(** The rows the INSERT ... ON CONFLICT DO UPDATE ... WHERE of the trigger
    (the statement of step (c)) inserts or updates. A conflicting row that
    fails the WHERE is not touched and fires nothing. *)
Definition insert_active_events (p_user_id : UUID) (v_next_module_id : Z)
           (now : timestamptz) (ps : list ump.row) : list row_event :=
  if existsb (is_row_of p_user_id v_next_module_id) ps then
    map (fun r => (Some r, DesignV2.set_active now r))
        (filter (fun r => is_row_of p_user_id v_next_module_id r
                          && negb (status_eqb (ump.status r) done)) ps)
  else
    [(None, ump.mk p_user_id v_next_module_id active None (Some now) now now)].

(** [IF NEW.status = 'done' AND (OLD.status IS NULL OR OLD.status != 'done')]. *)
Definition completes (OLD : option ump.row) (NEW : ump.row) : bool :=
  holds (and3 (eq3 status_eqb (Some (ump.status NEW)) (Some done))
              (or3 (is_null (option_map ump.status OLD))
                   (neq3 status_eqb (option_map ump.status OLD) (Some done)))).

(** [handle_module_completion()], fired AFTER INSERT OR UPDATE FOR EACH
    ROW by [trigger_module_completion]. Its own INSERT fires the trigger
    again for the row it inserts or updates; [depth] bounds that nesting,
    [None] is a nesting deeper than [depth]. [db] is the table as the
    firing statement left it. *)
Fixpoint handle_module_completion (depth : nat) (db : database)
         (OLD : option ump.row) (NEW : ump.row) (now : timestamptz)
  : option (result database) :=
  match depth with
  | O => None
  | S depth' =>
      if completes OLD NEW then
        match DesignV2.select_next_module_id (db_modules db) (ump.module_id NEW) with
        | Raise e => Some (Raise e)
        | Ok None => Some (Ok db)
        | Ok (Some v_next_module_id) =>
            fold_left
              (fun acc ev =>
                 match acc with
                 | Some (Ok d) =>
                     handle_module_completion depth' d (fst ev) (snd ev) now
                 | _ => acc
                 end)
              (insert_active_events (ump.user_id NEW) v_next_module_id now
                                    (db_progress db))
              (Some (Ok (mkdb (db_modules db)
                              (DesignV2.insert_active (ump.user_id NEW)
                                                      v_next_module_id now
                                                      (db_progress db)))))
        end
      else Some (Ok db)
  end.

(** The row triggers a statement queues, fired in order once the
    statement has changed the table to [db]. *)
Definition fire_triggers (depth : nat) (db : database) (events : list row_event)
           (now : timestamptz) : option (result database) :=
  fold_left
    (fun acc ev =>
       match acc with
       | Some (Ok d) => handle_module_completion depth d (fst ev) (snd ev) now
       | _ => acc
       end)
    events (Some (Ok db)).

End Triggers.

(** ** database-design.md: the view and the cache *)

(** Rows of the view [user_modules_with_status]. *)
Module uv.
Record row : Type := mk
  { id : Z;
    title : string;
    description : option string;
    order_index : Z;
    status : ModuleStatus;
    completed_at : option timestamptz;
    started_at : option timestamptz;
    user_id : option UUID }.
End uv.

(** Rows of the materialized view [user_modules_status_cache]. *)
Module cache.
Record row : Type := mk
  { user_id : option UUID;
    module_id : Z;
    order_index : Z;
    status : ModuleStatus }.
End cache.

Module Views.

(** [get_module_status(p_user_id, p_module_id)] at a user argument that
    may be NULL, as the view calls it. *)
Definition get_module_status (db : database) (p_user_id : option UUID)
           (p_module_id : Z) : ModuleStatus :=
  let v_order_index :=
    select_into (map modules.order_index
                     (filter (fun m => modules.id m =? p_module_id) (db_modules db))) in
  let v_current_status :=
    select_into
      (map ump.status
           (filter (fun r => holds (and3 (eq3 N.eqb (Some (ump.user_id r)) p_user_id)
                                         (Some (ump.module_id r =? p_module_id))))
                   (db_progress db))) in
  if holds (eq3 status_eqb v_current_status (Some done)) then done
  else if holds (eq3 Z.eqb v_order_index (Some 1)) then active
  else
    let v_previous_done_count :=
      List.length
        (filter (fun '(r, m) =>
                   holds (and3 (and3 (eq3 N.eqb (Some (ump.user_id r)) p_user_id)
                                     (Some (status_eqb (ump.status r) done)))
                               (lt3 (Some (modules.order_index m)) v_order_index)))
                (inner_join (fun r m => modules.id m =? ump.module_id r)
                            (db_progress db) (db_modules db))) in
    let v_total_previous_modules :=
      List.length
        (filter (fun m => holds (lt3 (Some (modules.order_index m)) v_order_index))
                (db_modules db)) in
    if Nat.eqb v_previous_done_count v_total_previous_modules then active
    else locked.

(** The view [user_modules_with_status]: one row per module and progress
    record of any user, one row with NULLs for a module without records.
    The CASE is never NULL, the second argument of COALESCE is kept as the
    source has it. *)
Definition user_modules_with_status (db : database) : list uv.row :=
  map (fun '(m, r) =>
         uv.mk (modules.id m) (modules.title m) (modules.description m)
               (modules.order_index m)
               (coalesce
                  (if holds (eq3 status_eqb (option_map ump.status r) (Some done))
                   then Some done
                   else Some (get_module_status db (option_map ump.user_id r)
                                                (modules.id m)))
                  (get_module_status db None (modules.id m)))
               (match r with Some x => ump.completed_at x | None => None end)
               (match r with Some x => ump.started_at x | None => None end)
               (option_map ump.user_id r))
      (order_by (fun mr => modules.order_index (fst mr))
                (left_join (fun m r => modules.id m =? ump.module_id r)
                           (db_modules db) (db_progress db))).

(** [SELECT DISTINCT user_id FROM user_module_progress]. *)
Definition distinct_user_id (ps : list ump.row) : list UUID :=
  nodup N.eq_dec (map ump.user_id ps).

(** [modules m CROSS JOIN (...) users LEFT JOIN user_module_progress ump
    ON m.id = ump.module_id AND ump.user_id = users.user_id], the FROM
    clause of both variants of the cache. *)
Definition cache_from (db : database)
  : list ((modules.row * UUID) * option ump.row) :=
  left_join (fun mu r => (modules.id (fst mu) =? ump.module_id r)
                         && (ump.user_id r =? snd mu)%N)
            (list_prod (db_modules db) (distinct_user_id (db_progress db)))
            (db_progress db).

(** The materialized view [user_modules_status_cache] of
    database-design.md. It selects [ump.user_id], and its subquery
    compares with [ump.user_id], both NULL on a row without a record. *)
Definition user_modules_status_cache (db : database) : list cache.row :=
  map (fun '((m, _), r) =>
         cache.mk
           (option_map ump.user_id r) (modules.id m) (modules.order_index m)
           (if holds (eq3 status_eqb (option_map ump.status r) (Some done)) then done
            else if holds (Some (modules.order_index m =? 1)) then active
            else if
              Nat.eqb
                (List.length
                   (filter (fun '(ump2, m2) =>
                              holds (and3 (and3 (eq3 N.eqb (Some (ump.user_id ump2))
                                                     (option_map ump.user_id r))
                                                (Some (status_eqb (ump.status ump2) done)))
                                          (Some (modules.order_index m2
                                                 <? modules.order_index m))))
                           (inner_join (fun ump2 m2 => modules.id m2 =? ump.module_id ump2)
                                       (db_progress db) (db_modules db))))
                (List.length
                   (filter (fun m3 => holds (Some (modules.order_index m3
                                                   <? modules.order_index m)))
                           (db_modules db)))
            then active
            else locked))
      (cache_from db).

(** The materialized view [user_modules_status_cache] of the revised
    document: [COALESCE(ump.status, 'locked')]. *)
Definition user_modules_status_cache_v2 (db : database) : list cache.row :=
  map (fun '((m, _), r) =>
         cache.mk (option_map ump.user_id r) (modules.id m) (modules.order_index m)
                  (coalesce (option_map ump.status r) locked))
      (cache_from db).

End Views.

(** ** Row level security *)

Module Rls.

(** Policy "Users can view own progress": [USING (auth.uid() = user_id)];
    [auth_uid] is NULL for a caller who is not signed in. Policy "Users can
    view all modules" is [USING (true)]. The functions are not SECURITY
    DEFINER, so their reads go through these policies. *)
Definition view_own_progress (auth_uid : option UUID) (ps : list ump.row)
  : list ump.row :=
  filter (fun r => holds (eq3 N.eqb auth_uid (Some (ump.user_id r)))) ps.

Definition visible (auth_uid : option UUID) (db : database) : database :=
  mkdb (db_modules db) (view_own_progress auth_uid (db_progress db)).

End Rls.

(** ** More example states *)

Definition user_b : UUID := 9%N.

(** Two users: [user_a] has finished module 1 and is on module 2,
    [user_b] is on module 1. *)
Definition db_two_users : database :=
  mkdb seed_modules
       [ump.mk user_a 1 done (Some 20) (Some 10) 10 20;
        ump.mk user_a 2 active None (Some 20) 20 20;
        ump.mk user_b 1 active None (Some 15) 15 15].

(** ** Predicates for the agreement of the two projections *)

(** Every module that the rule of the document makes available (it sits
    at position 1, or all modules before it are recorded as 'done') has a
    record that is 'active' or 'done'. *)
Definition frontier_open (db : database) (u : UUID) : Prop :=
  forall m,
    In m (db_modules db) ->
    (modules.order_index m = 1 \/
     forall m', In m' (db_modules db) ->
                modules.order_index m' < modules.order_index m ->
                DesignV2.select_current_status db u (modules.id m') = Some done) ->
    exists st, DesignV2.select_current_status db u (modules.id m) = Some st /\
               st <> locked.

(** The positions of the catalog have no gap: below a module, every
    position that is taken has its next position taken too. *)
Definition no_gaps (ms : list modules.row) : Prop :=
  forall a b, In a ms -> In b ms ->
              modules.order_index a < modules.order_index b ->
              exists c, In c ms /\ modules.order_index c = modules.order_index a + 1.

(** The positions are INTEGER values. *)
Definition int4_positions (ms : list modules.row) : Prop :=
  forall x, In x ms -> int4_min <= modules.order_index x <= int4_max.

(** [s] is the next module after [m] in catalog order: the module with
    the smallest position above the position of [m]. *)
Definition next_in_order (ms : list modules.row) (m s : modules.row) : Prop :=
  In s ms /\ modules.order_index m < modules.order_index s /\
  forall x, In x ms -> modules.order_index m < modules.order_index x ->
            modules.order_index s <= modules.order_index x.

(** * Properties *)

(** ** Lists as tables *)

Section ListFacts.

Context {A B : Type}.

Lemma In_insert_by (key : A -> Z) (x y : A) (l : list A) :
  In y (insert_by key x l) <-> y = x \/ In y l.
Proof.
  induction l as [|z l IH]; simpl.
  - intuition.
  - destruct (key x <=? key z); simpl; rewrite ?IH; intuition.
Qed.

Lemma In_order_by (key : A -> Z) (y : A) (l : list A) :
  In y (order_by key l) <-> In y l.
Proof.
  unfold order_by. induction l as [|x l IH]; simpl.
  - tauto.
  - rewrite In_insert_by, IH. intuition.
Qed.

Lemma In_left_join (on : A -> B -> bool) (l : list A) (r : list B) a ob :
  In (a, ob) (left_join on l r) <->
  In a l /\ match ob with
            | Some b => In b r /\ on a b = true
            | None => filter (on a) r = []
            end.
Proof.
  unfold left_join. rewrite in_flat_map. split.
  - intros (a' & Ha' & Hin).
    destruct (filter (on a') r) as [|b0 bs] eqn:Hf.
    + destruct Hin as [Heq|[]]. inversion Heq; subst. auto.
    + rewrite <- Hf in Hin. apply in_map_iff in Hin.
      destruct Hin as (b & Heq & Hb). inversion Heq; subst.
      apply filter_In in Hb. auto.
  - intros (Ha & Hob). exists a. split; [assumption|].
    destruct ob as [b|].
    + destruct Hob as (Hb & Hon).
      assert (Hin : In b (filter (on a) r)) by (apply filter_In; auto).
      destruct (filter (on a) r) as [|b0 bs] eqn:Hf; [contradiction|].
      apply (in_map (fun b1 => (a, Some b1))). exact Hin.
    + rewrite Hob. left. reflexivity.
Qed.

Lemma NoDup_map_inj (f : A -> B) (l : list A) (x y : A) :
  NoDup (map f l) -> In x l -> In y l -> f x = f y -> x = y.
Proof.
  induction l as [|z l IH]; simpl; [tauto|].
  intros Hnd Hx Hy Hxy. inversion Hnd as [|? ? Hnotin Hnd']; subst.
  destruct Hx as [->|Hx], Hy as [->|Hy]; auto.
  - exfalso. apply Hnotin. rewrite Hxy. now apply in_map.
  - exfalso. apply Hnotin. rewrite <- Hxy. now apply in_map.
Qed.

(** Under a uniqueness constraint on [f], selecting by the value of [f]
    returns the one row that has it. *)
Lemma filter_unique (f : A -> B) (p : A -> bool) (l : list A) (x : A) :
  NoDup (map f l) -> In x l ->
  (forall y, In y l -> p y = true <-> f y = f x) ->
  filter p l = [x].
Proof.
  induction l as [|z l IH]; simpl; [tauto|].
  intros Hnd Hx Hp. inversion Hnd as [|? ? Hnotin Hnd']; subst.
  assert (Hnone : forall l', (forall y, In y l' -> p y = false) -> filter p l' = []).
  { induction l' as [|w l' IH']; simpl; intros Hall; [reflexivity|].
    rewrite (Hall w (or_introl eq_refl)). apply IH'. auto. }
  destruct Hx as [->|Hx].
  - assert (Hpx : p x = true) by (apply Hp; auto).
    rewrite Hpx. f_equal. apply Hnone. intros y Hy.
    destruct (p y) eqn:Hpy; [|reflexivity].
    exfalso. apply Hnotin. apply Hp in Hpy; [|auto]. rewrite <- Hpy. now apply in_map.
  - assert (Hpz : p z = false).
    { destruct (p z) eqn:Hpz; [|reflexivity].
      exfalso. apply Hnotin. apply Hp in Hpz; [|auto]. rewrite Hpz. now apply in_map. }
    rewrite Hpz. apply IH; auto.
Qed.

Lemma filter_none (p : A -> bool) (l : list A) :
  (forall y, In y l -> p y = false) -> filter p l = [].
Proof.
  induction l as [|w l IH]; simpl; intros Hall; [reflexivity|].
  rewrite (Hall w (or_introl eq_refl)). apply IH. auto.
Qed.

End ListFacts.

Lemma is_row_of_spec u m r :
  is_row_of u m r = true <-> ump.user_id r = u /\ ump.module_id r = m.
Proof.
  unfold is_row_of. rewrite andb_true_iff, N.eqb_eq, Z.eqb_eq. tauto.
Qed.

Lemma status_eqb_eq a b : status_eqb a b = true <-> a = b.
Proof. destruct a, b; simpl; split; congruence. Qed.

(** A NoDup goal over a concrete list of distinct values. *)
Ltac nodup_concrete :=
  repeat (constructor; [cbn; intuition discriminate|]); constructor.

(** ** Reading one user's record *)

Lemma select_current_status_None db u m :
  DesignV2.select_current_status db u m = None <->
  (forall r, In r (db_progress db) -> is_row_of u m r = false).
Proof.
  unfold DesignV2.select_current_status, select_into. split.
  - intros H r Hr. destruct (is_row_of u m r) eqn:E; [|reflexivity].
    assert (Hin : In r (filter (is_row_of u m) (db_progress db)))
      by (apply filter_In; auto).
    destruct (filter (is_row_of u m) (db_progress db)); [contradiction|discriminate].
  - intros H. rewrite (filter_none _ _ H). reflexivity.
Qed.

Lemma select_current_status_Some db u m st :
  DesignV2.select_current_status db u m = Some st ->
  exists r, In r (db_progress db) /\ is_row_of u m r = true /\ ump.status r = st.
Proof.
  unfold DesignV2.select_current_status, select_into. intros H.
  destruct (filter (is_row_of u m) (db_progress db)) as [|r rs] eqn:Hf; [discriminate|].
  simpl in H. injection H as <-.
  assert (Hin : In r (filter (is_row_of u m) (db_progress db)))
    by (rewrite Hf; left; reflexivity).
  apply filter_In in Hin. exists r. tauto.
Qed.

Lemma select_current_status_unique db u m r :
  uq_user_module (db_progress db) -> In r (db_progress db) ->
  is_row_of u m r = true ->
  filter (is_row_of u m) (db_progress db) = [r].
Proof.
  intros Huq Hr Hrow. apply is_row_of_spec in Hrow. destruct Hrow as [Hu Hm].
  apply (filter_unique (fun x => (ump.user_id x, ump.module_id x))); auto.
  intros y _. rewrite is_row_of_spec. rewrite Hu, Hm. split.
  - intros [-> ->]. reflexivity.
  - intros H. injection H. auto.
Qed.

(** The guard of [complete_module] lets exactly the status 'active' pass. *)
Lemma guard_holds (v : option ModuleStatus) :
  holds (or3 (is_null v) (neq3 status_eqb v (Some active))) = false <->
  v = Some active.
Proof. destruct v as [[]|]; simpl; split; congruence. Qed.

(** ** The successor lookup of [complete_module] *)

Lemma select_next_module_id_unknown ms m :
  ~ In m (map modules.id ms) ->
  DesignV2.select_next_module_id ms m = Ok None.
Proof.
  intros Hm. unfold DesignV2.select_next_module_id.
  rewrite (filter_none (fun x => modules.id x =? m) ms).
  - simpl. rewrite filter_none; [reflexivity|]. intros y _. reflexivity.
  - intros y Hy. apply Z.eqb_neq. intros <-. apply Hm. now apply in_map.
Qed.

Lemma int4pl_Ok x y v : int4pl x y = Ok v -> v = x + y /\ x + y <= int4_max.
Proof.
  unfold int4pl. cbv zeta.
  destruct ((int4_min <=? x + y) && (x + y <=? int4_max)) eqn:E; [|discriminate].
  intros H. injection H as <-. apply andb_true_iff in E. destruct E as [_ E].
  apply Z.leb_le in E. auto.
Qed.

Lemma select_next_module_id_Some ms m next :
  DesignV2.select_next_module_id ms m = Ok (Some next) ->
  exists r s,
    filter (fun x => modules.id x =? m) ms = [r] /\
    In s ms /\ modules.id s = next /\
    modules.order_index s = modules.order_index r + 1.
Proof.
  unfold DesignV2.select_next_module_id, scalar_subquery, bind.
  destruct (filter (fun x => modules.id x =? m) ms) as [|r [|r' rest]] eqn:Hf.
  - rewrite filter_none; [discriminate|]. intros y _. reflexivity.
  - destruct (int4pl (modules.order_index r) 1) as [v|e] eqn:Hv; [|discriminate].
    apply int4pl_Ok in Hv. destruct Hv as [-> _]. unfold select_into.
    match goal with
    | |- context [hd_error (map _ ?l)] => destruct l as [|s ss] eqn:Hs
    end; [discriminate|].
    simpl. intros [= <-].
    assert (Hin : In s (s :: ss)) by (left; reflexivity).
    rewrite <- Hs in Hin. apply filter_In in Hin. destruct Hin as [Hin Heq].
    simpl in Heq. destruct (modules.order_index s =? modules.order_index r + 1) eqn:E;
      [|discriminate].
    apply Z.eqb_eq in E. exists r, s. auto.
  - destruct (int4pl (modules.order_index r) 1); [|discriminate].
    destruct (int4pl (modules.order_index r') 1); discriminate.
Qed.

(** The successor is never the completed module itself. *)
Lemma select_next_module_id_neq ms m next :
  DesignV2.select_next_module_id ms m = Ok (Some next) -> next <> m.
Proof.
  intros H. apply select_next_module_id_Some in H.
  destruct H as (r & s & Hf & Hs & Hid & Hord). intros ->.
  assert (Hin : In s (filter (fun x => modules.id x =? m) ms)).
  { apply filter_In. split; [assumption|]. now apply Z.eqb_eq. }
  rewrite Hf in Hin. destruct Hin as [->|[]]. lia.
Qed.

(** The successor lookup does not read the progress table or the clock,
    and [complete_module] never changes the catalog. *)
Lemma complete_module_modules db u m now db' :
  DesignV2.complete_module db u m now = Ok db' -> db_modules db' = db_modules db.
Proof.
  unfold DesignV2.complete_module, bind.
  destruct (holds _); [intros H; injection H as <-; reflexivity|].
  simpl. destruct (DesignV2.select_next_module_id _ _) as [[next|]|e];
    intros H; try discriminate; injection H as <-; reflexivity.
Qed.

(** ** Step (a) and step (c) on rows *)

Lemma update_done_filter_same u m now ps :
  filter (is_row_of u m) (DesignV2.update_done u m now ps) =
  map (DesignV2.set_done now) (filter (is_row_of u m) ps).
Proof.
  unfold DesignV2.update_done. induction ps as [|r ps IH]; simpl; [reflexivity|].
  destruct (is_row_of u m r) eqn:E; simpl.
  - assert (E' : is_row_of u m (DesignV2.set_done now r) = true) by exact E.
    rewrite E'. simpl. now rewrite IH.
  - rewrite E. exact IH.
Qed.

Lemma update_done_filter_other u m now u' m' ps :
  (u', m') <> (u, m) ->
  filter (is_row_of u' m') (DesignV2.update_done u m now ps) =
  filter (is_row_of u' m') ps.
Proof.
  intros Hne. unfold DesignV2.update_done.
  induction ps as [|r ps IH]; simpl; [reflexivity|].
  destruct (is_row_of u m r) eqn:E.
  - assert (E' : is_row_of u' m' (DesignV2.set_done now r) = is_row_of u' m' r)
      by reflexivity.
    rewrite E'. destruct (is_row_of u' m' r) eqn:E2.
    + exfalso. apply Hne. apply is_row_of_spec in E, E2.
      destruct E as [<- <-], E2 as [<- <-]. reflexivity.
    + exact IH.
  - destruct (is_row_of u' m' r); now rewrite IH.
Qed.

Lemma insert_active_filter_other u next now u' m' ps :
  (u', m') <> (u, next) ->
  filter (is_row_of u' m') (DesignV2.insert_active u next now ps) =
  filter (is_row_of u' m') ps.
Proof.
  intros Hne. unfold DesignV2.insert_active.
  assert (Hoff : forall r, is_row_of u next r = true -> is_row_of u' m' r = false).
  { intros r E. destruct (is_row_of u' m' r) eqn:E2; [|reflexivity].
    exfalso. apply Hne. apply is_row_of_spec in E, E2.
    destruct E as [<- <-], E2 as [<- <-]. reflexivity. }
  destruct (existsb (is_row_of u next) ps).
  - induction ps as [|r ps IH]; simpl; [reflexivity|].
    destruct (is_row_of u next r) eqn:E; simpl.
    + destruct (negb (status_eqb (ump.status r) done)).
      * assert (E' : is_row_of u' m' (DesignV2.set_active now r) = is_row_of u' m' r)
          by reflexivity.
        rewrite E', (Hoff r E). exact IH.
      * rewrite (Hoff r E). exact IH.
    + destruct (is_row_of u' m' r); now rewrite IH.
  - rewrite filter_app. simpl.
    assert (E : is_row_of u next (ump.mk u next active None (Some now) now now) = true).
    { apply is_row_of_spec. auto. }
    rewrite (Hoff _ E). apply app_nil_r.
Qed.

(** A successor whose rows are all 'done' is left exactly as it is. *)
Lemma insert_active_all_done u next now ps :
  existsb (is_row_of u next) ps = true ->
  (forall r, In r ps -> is_row_of u next r = true -> ump.status r = done) ->
  DesignV2.insert_active u next now ps = ps.
Proof.
  intros Hex Hall. unfold DesignV2.insert_active. rewrite Hex. clear Hex.
  induction ps as [|r ps IH]; simpl; [reflexivity|].
  rewrite IH by (intros; apply Hall; simpl; auto). f_equal.
  destruct (is_row_of u next r) eqn:E; [|reflexivity].
  rewrite (Hall r (or_introl eq_refl) E). reflexivity.
Qed.

(** After step (c) the successor has a row, and its first row is 'active'
    or 'done'. *)
Lemma insert_active_provisioned u next now ps :
  exists r rs,
    filter (is_row_of u next) (DesignV2.insert_active u next now ps) = r :: rs /\
    ump.status r <> locked.
Proof.
  unfold DesignV2.insert_active.
  destruct (existsb (is_row_of u next) ps) eqn:Hex.
  - apply existsb_exists in Hex. destruct Hex as (x & Hx & Ex).
    induction ps as [|r ps IH]; [contradiction|]. simpl.
    destruct (is_row_of u next r) eqn:E; simpl.
    + destruct (status_eqb (ump.status r) done) eqn:Ed; simpl.
      * rewrite E. apply status_eqb_eq in Ed. eexists _, _. split; [reflexivity|].
        congruence.
      * assert (E' : is_row_of u next (DesignV2.set_active now r) = true) by exact E.
        rewrite E'. eexists _, _. split; [reflexivity|]. simpl. discriminate.
    + rewrite E. destruct Hx as [->|Hx]; [congruence|]. now apply IH.
  - rewrite filter_app. simpl.
    assert (E : is_row_of u next (ump.mk u next active None (Some now) now now) = true).
    { apply is_row_of_spec. auto. }
    rewrite E. rewrite filter_none.
    + eexists _, _. split; [reflexivity|]. simpl. discriminate.
    + intros y Hy. destruct (is_row_of u next y) eqn:Ey; [|reflexivity].
      assert (existsb (is_row_of u next) ps = true)
        by (apply existsb_exists; eauto).
      congruence.
Qed.

(** ** The three ways [complete_module] can end *)

Lemma complete_module_cases db u m now :
  let db_a := mkdb (db_modules db)
                   (DesignV2.update_done u m now (db_progress db)) in
  (DesignV2.select_current_status db u m <> Some active /\
   DesignV2.complete_module db u m now = Ok db)
  \/
  (DesignV2.select_current_status db u m = Some active /\
   match DesignV2.select_next_module_id (db_modules db) m with
   | Raise e => DesignV2.complete_module db u m now = Raise e
   | Ok None => DesignV2.complete_module db u m now = Ok db_a
   | Ok (Some next) =>
       DesignV2.complete_module db u m now =
       Ok (mkdb (db_modules db)
                (DesignV2.insert_active u next now (db_progress db_a)))
   end).
Proof.
  intros db_a. unfold DesignV2.complete_module.
  destruct (holds _) eqn:G.
  - left. split; [|reflexivity]. intros H. apply guard_holds in H. congruence.
  - right. apply guard_holds in G. split; [assumption|]. simpl.
    destruct (DesignV2.select_next_module_id (db_modules db) m) as [[next|]|e];
      reflexivity.
Qed.

Lemma select_current_status_after_update db u m now :
  DesignV2.select_current_status db u m = Some active ->
  DesignV2.select_current_status
    (mkdb (db_modules db) (DesignV2.update_done u m now (db_progress db))) u m
  = Some done.
Proof.
  unfold DesignV2.select_current_status. simpl. rewrite update_done_filter_same.
  destruct (filter (is_row_of u m) (db_progress db)); [discriminate|reflexivity].
Qed.

(** A successful, effective call leaves the completed module 'done'. *)
Lemma complete_module_marks_done db u m now db' :
  DesignV2.select_current_status db u m = Some active ->
  DesignV2.complete_module db u m now = Ok db' ->
  DesignV2.select_current_status db' u m = Some done.
Proof.
  intros Hact Hok.
  destruct (complete_module_cases db u m now) as [[Hn _]|[_ Hc]]; [congruence|].
  destruct (DesignV2.select_next_module_id (db_modules db) m) as [[next|]|e] eqn:Hn;
    rewrite Hc in Hok; try discriminate; injection Hok as <-.
  - unfold DesignV2.select_current_status. simpl.
    rewrite insert_active_filter_other.
    + now apply (select_current_status_after_update db u m now).
    + apply select_next_module_id_neq in Hn. congruence.
  - now apply select_current_status_after_update.
Qed.

Lemma complete_module_not_active db u m now :
  DesignV2.select_current_status db u m <> Some active ->
  DesignV2.complete_module db u m now = Ok db.
Proof.
  intros H.
  destruct (complete_module_cases db u m now) as [[_ Hc]|[Hact _]];
    [exact Hc|contradiction].
Qed.

(** C5. Silent no-op: when the user's record for the module is absent, or
    its status is 'locked' or already 'done', [complete_module] returns
    without raising an error and the whole database, so every progress
    row, is left as it was. *)
Theorem complete_module_silent_noop db u m now :
  DesignV2.select_current_status db u m = None \/
  DesignV2.select_current_status db u m = Some locked \/
  DesignV2.select_current_status db u m = Some done ->
  DesignV2.complete_module db u m now = Ok db /\
  DesignV2.completeModule db u m now = (db, None).
Proof.
  intros H.
  assert (Hok : DesignV2.complete_module db u m now = Ok db).
  { apply complete_module_not_active. destruct H as [H|[H|H]]; congruence. }
  split; [exact Hok|]. unfold DesignV2.completeModule. now rewrite Hok.
Qed.

Lemma complete_module_silent_noop_witness :
  DesignV2.complete_module db_started user_a 3 99 = Ok db_started /\
  DesignV2.completeModule db_started user_a 3 99 = (db_started, None).
Proof.
  apply (complete_module_silent_noop db_started user_a 3 99).
  left. reflexivity.
Defined.

(** C6. Idempotent completion: a second [completeModule] call for the same
    user and module, right after the first, changes nothing; two calls in
    a row end in the state one call ends in. *)
Theorem complete_module_idempotent db u m now now' :
  fst (DesignV2.completeModule (fst (DesignV2.completeModule db u m now)) u m now')
  = fst (DesignV2.completeModule db u m now) /\
  DesignV2.run db [(u, m, now); (u, m, now')] = DesignV2.run db [(u, m, now)].
Proof.
  assert (Hfst :
    fst (DesignV2.completeModule (fst (DesignV2.completeModule db u m now)) u m now')
    = fst (DesignV2.completeModule db u m now)).
  { unfold DesignV2.completeModule at 2 3.
    destruct (DesignV2.complete_module db u m now) as [db'|e] eqn:H1; simpl.
    - destruct (complete_module_cases db u m now) as [[Hn Hc]|[Hact _]].
      + (* the first call was a no-op, and so is the second *)
        rewrite Hc in H1. injection H1 as <-.
        unfold DesignV2.completeModule.
        destruct (complete_module_cases db u m now') as [[_ Hc']|[Hact' _]];
          [now rewrite Hc'|congruence].
      + (* the first call completed the module: it is 'done' now *)
        pose proof (complete_module_marks_done _ _ _ _ _ Hact H1) as Hdone.
        unfold DesignV2.completeModule.
        rewrite complete_module_not_active; [reflexivity|congruence].
    - (* the first call was rolled back, and so is the second *)
      unfold DesignV2.completeModule.
      destruct (DesignV2.complete_module db u m now') as [db''|e'] eqn:H2;
        [|reflexivity].
      exfalso.
      destruct (complete_module_cases db u m now) as [[_ Hc]|[Hact Hc]]; [congruence|].
      destruct (complete_module_cases db u m now') as [[Hn' _]|[Hact' Hc']].
      + destruct (DesignV2.select_next_module_id (db_modules db) m) as [[?|]|?];
          congruence.
      + destruct (DesignV2.select_next_module_id (db_modules db) m) as [[?|]|?];
          congruence. }
  split; [exact Hfst|]. unfold DesignV2.run. simpl. exact Hfst.
Qed.

Lemma existsb_filter_cons {A : Type} (p : A -> bool) (l : list A) x xs :
  filter p l = x :: xs -> existsb p l = true.
Proof.
  intros H. apply existsb_exists. exists x.
  apply filter_In. rewrite H. left. reflexivity.
Qed.

(** C7. No regression: when the successor of the completed module already
    has a 'done' record, [complete_module] marks the module 'done' and the
    successor's row is exactly as before: its status, started_at,
    completed_at and every other column keep their values. *)
Theorem complete_module_no_regression db u m next now :
  uq_user_module (db_progress db) ->
  DesignV2.select_current_status db u m = Some active ->
  DesignV2.select_next_module_id (db_modules db) m = Ok (Some next) ->
  DesignV2.select_current_status db u next = Some done ->
  exists db',
    DesignV2.completeModule db u m now = (db', None) /\
    DesignV2.select_current_status db' u m = Some done /\
    filter (is_row_of u next) (db_progress db') =
    filter (is_row_of u next) (db_progress db).
Proof.
  intros Huq Hact Hnext Hdone.
  pose proof (select_next_module_id_neq _ _ _ Hnext) as Hne.
  destruct (select_current_status_Some _ _ _ _ Hdone) as (s & Hs & Hrow & Hst).
  pose proof (select_current_status_unique db u next s Huq Hs Hrow) as Hf.
  set (ps_a := DesignV2.update_done u m now (db_progress db)).
  assert (Hf_a : filter (is_row_of u next) ps_a = [s]).
  { unfold ps_a. rewrite update_done_filter_other; [exact Hf|congruence]. }
  assert (Hid : DesignV2.insert_active u next now ps_a = ps_a).
  { apply insert_active_all_done.
    - now apply (existsb_filter_cons _ _ _ _ Hf_a).
    - intros r Hr Er.
      assert (Hin : In r (filter (is_row_of u next) ps_a)) by (apply filter_In; auto).
      rewrite Hf_a in Hin. destruct Hin as [<-|[]]. exact Hst. }
  destruct (complete_module_cases db u m now) as [[Hn _]|[_ Hc]]; [congruence|].
  rewrite Hnext in Hc. simpl in Hc. fold ps_a in Hc. rewrite Hid in Hc.
  exists (mkdb (db_modules db) ps_a). split; [|split].
  - unfold DesignV2.completeModule. now rewrite Hc.
  - now apply (complete_module_marks_done db u m now).
  - simpl. rewrite Hf_a, Hf. reflexivity.
Qed.

Lemma complete_module_no_regression_witness :
  exists db',
    DesignV2.completeModule db_successor_done user_a 1 9 = (db', None) /\
    DesignV2.select_current_status db' user_a 1 = Some done /\
    filter (is_row_of user_a 2) (db_progress db') =
    filter (is_row_of user_a 2) (db_progress db_successor_done).
Proof.
  apply (complete_module_no_regression db_successor_done user_a 1 2 9).
  - unfold uq_user_module. simpl. nodup_concrete.
  - reflexivity.
  - reflexivity.
  - reflexivity.
Defined.

(** ** The last module of the catalog *)

(** X1. Completing the last module, when its position is below the largest
    INTEGER: only step (a) takes effect. *)
Lemma complete_module_terminal db u m now r :
  filter (fun x => modules.id x =? m) (db_modules db) = [r] ->
  (forall s, In s (db_modules db) -> modules.order_index s <= modules.order_index r) ->
  int4_min <= modules.order_index r < int4_max ->
  DesignV2.select_current_status db u m = Some active ->
  DesignV2.completeModule db u m now =
  (mkdb (db_modules db) (DesignV2.update_done u m now (db_progress db)), None).
Proof.
  intros Hf Hmax Hrange Hact.
  assert (Hnext : DesignV2.select_next_module_id (db_modules db) m = Ok None).
  { unfold DesignV2.select_next_module_id. rewrite Hf. simpl.
    unfold int4pl. cbv zeta.
    replace ((int4_min <=? modules.order_index r + 1)
             && (modules.order_index r + 1 <=? int4_max)) with true.
    - simpl. rewrite filter_none; [reflexivity|].
      intros s Hs. simpl. specialize (Hmax s Hs).
      destruct (modules.order_index s =? modules.order_index r + 1) eqn:E;
        [|reflexivity].
      apply Z.eqb_eq in E. lia.
    - symmetry. apply andb_true_iff. split; apply Z.leb_le; lia. }
  destruct (complete_module_cases db u m now) as [[Hn _]|[_ Hc]]; [congruence|].
  rewrite Hnext in Hc. unfold DesignV2.completeModule. now rewrite Hc.
Qed.

Lemma update_done_length u m now ps :
  List.length (DesignV2.update_done u m now ps) = List.length ps.
Proof. unfold DesignV2.update_done. apply length_map. Qed.

Lemma update_done_In u m now ps r' :
  In r' (DesignV2.update_done u m now ps) <->
  exists r, In r ps /\
            r' = if is_row_of u m r then DesignV2.set_done now r else r.
Proof.
  unfold DesignV2.update_done. rewrite in_map_iff. split.
  - intros (r & <- & Hr). eauto.
  - intros (r & Hr & ->). eauto.
Qed.

(** The seeded catalog ends below the largest INTEGER, and there the last
    module completes as the specification says. *)
Example complete_module_last_seeded :
  DesignV2.completeModule db_last_active user_a 5 50 =
  (mkdb seed_modules
        [ump.mk user_a 4 done (Some 40) (Some 30) 30 40;
         ump.mk user_a 5 done (Some 50) (Some 40) 40 50], None).
Proof. reflexivity. Qed.

(** C8, at its failing input. The catalog's last module has position
    2147483647 and is 'active' for the user. Step (b) computes
    [order_index + 1] before it looks for a successor, the addition is out
    of the INTEGER range, the call raises and the module stays 'active'. *)
Theorem complete_module_last_at_int4_max_raises now :
  (forall s, In s (db_modules db_last_at_int4_max) ->
             modules.order_index s <= 2147483647) /\
  DesignV2.select_current_status db_last_at_int4_max user_a 2 = Some active /\
  DesignV2.completeModule db_last_at_int4_max user_a 2 now =
  (db_last_at_int4_max, Some IntegerOutOfRange) /\
  DesignV2.select_current_status
    (fst (DesignV2.completeModule db_last_at_int4_max user_a 2 now)) user_a 2
  = Some active.
Proof.
  split; [|split; [|split]]; try reflexivity.
  simpl. intros s [<-|[<-|[]]]; simpl; lia.
Qed.

(** ** Modules that are not in the catalog *)

(** C9, refuted as stated: module 99 is not in the seeded catalog, and the
    successor lookup for it raises no error at all. *)
Lemma unknown_module_lookup_does_not_fail :
  ~ In 99 (map modules.id seed_modules) /\
  forall e, DesignV2.select_next_module_id seed_modules 99 <> Raise e.
Proof.
  split.
  - simpl. intuition discriminate.
  - intros e. discriminate.
Qed.

(** C9, as the code has it: for a module that is not in the catalog the
    successor lookup succeeds with NULL, the answer it also gives for the
    last module, and [complete_module] on such a module never raises. *)
Theorem unknown_module_has_no_successor db u m now :
  ~ In m (map modules.id (db_modules db)) ->
  DesignV2.select_next_module_id (db_modules db) m = Ok None /\
  snd (DesignV2.completeModule db u m now) = None.
Proof.
  intros Hm. pose proof (select_next_module_id_unknown _ _ Hm) as Hn.
  split; [exact Hn|]. unfold DesignV2.completeModule.
  destruct (complete_module_cases db u m now) as [[_ Hc]|[_ Hc]].
  - now rewrite Hc.
  - rewrite Hn in Hc. now rewrite Hc.
Qed.

Lemma unknown_module_has_no_successor_witness :
  DesignV2.select_next_module_id (db_modules db_started) 99 = Ok None /\
  snd (DesignV2.completeModule db_started user_a 99 20) = None.
Proof.
  apply (unknown_module_has_no_successor db_started user_a 99 20).
  simpl. intuition discriminate.
Defined.

(** C10. [get_module_status] on a module that is not in the catalog, for a
    user without a record for it, answers 'active': the position is NULL,
    both counts of preceding modules are 0 and the comparison succeeds. *)
Theorem get_module_status_unknown_module db u m :
  ~ In m (map modules.id (db_modules db)) ->
  (forall r, In r (db_progress db) -> is_row_of u m r = false) ->
  DesignV1.get_module_status db u m = active.
Proof.
  intros Hm Hr. unfold DesignV1.get_module_status.
  rewrite (filter_none (fun x => modules.id x =? m) (db_modules db)).
  - rewrite (filter_none _ _ Hr). simpl.
    rewrite filter_none.
    + rewrite filter_none; [reflexivity|]. intros y _. reflexivity.
    + intros [r x] _.
      destruct (ump.user_id r =? u)%N, (status_eqb (ump.status r) done); reflexivity.
  - intros y Hy. apply Z.eqb_neq. intros <-. apply Hm. now apply in_map.
Qed.

Lemma get_module_status_unknown_module_witness :
  DesignV1.get_module_status db_started user_a 99 = active.
Proof.
  apply (get_module_status_unknown_module db_started user_a 99).
  - simpl. intuition discriminate.
  - simpl. intros r [<-|[]]. reflexivity.
Defined.

(** ** The rows of the two projections *)

Lemma on_user_spec u m r :
  on_user u m r = true <-> is_row_of u (modules.id m) r = true.
Proof.
  unfold on_user. rewrite is_row_of_spec, andb_true_iff, N.eqb_eq, Z.eqb_eq.
  intuition congruence.
Qed.

Lemma V2_get_user_modules_In db u x :
  In x (DesignV2.get_user_modules db u) <->
  exists m r,
    In (m, r) (left_join (on_user u) (db_modules db) (db_progress db)) /\
    x = um.mk (modules.id m) (modules.title m) (modules.description m)
              (modules.order_index m)
              (coalesce (option_map ump.status r) locked)
              (match r with Some b => ump.completed_at b | None => None end)
              (match r with Some b => ump.started_at b | None => None end).
Proof.
  unfold DesignV2.get_user_modules. rewrite in_map_iff. split.
  - intros ([m r] & <- & Hin). apply In_order_by in Hin. eauto.
  - intros (m & r & Hin & ->). exists (m, r). split; [reflexivity|].
    apply In_order_by. exact Hin.
Qed.

Lemma V1_get_user_modules_In db u x :
  In x (DesignV1.get_user_modules db u) <->
  exists m r,
    In (m, r) (left_join (on_user u) (db_modules db) (db_progress db)) /\
    x = um.mk (modules.id m) (modules.title m) (modules.description m)
              (modules.order_index m)
              (DesignV1.module_statuses_status db u m r)
              (match r with Some b => ump.completed_at b | None => None end)
              (match r with Some b => ump.started_at b | None => None end).
Proof.
  unfold DesignV1.get_user_modules. rewrite in_map_iff. split.
  - intros ([m r] & <- & Hin). apply In_order_by in Hin. eauto.
  - intros (m & r & Hin & ->). exists (m, r). split; [reflexivity|].
    apply In_order_by. exact Hin.
Qed.

(** Both projections list the same modules in the same order. *)
Lemma get_user_modules_same_modules db u :
  map um.id (DesignV1.get_user_modules db u) =
  map um.id (DesignV2.get_user_modules db u).
Proof.
  unfold DesignV1.get_user_modules, DesignV2.get_user_modules.
  rewrite !map_map. apply map_ext. intros [m r]. reflexivity.
Qed.

(** For a user without records every join partner is NULL. *)
Lemma left_join_no_rows u db m r :
  no_rows_of u (db_progress db) ->
  In (m, r) (left_join (on_user u) (db_modules db) (db_progress db)) ->
  r = None.
Proof.
  intros Hno Hin. apply In_left_join in Hin. destruct Hin as [_ Hr].
  destruct r as [b|]; [|reflexivity]. exfalso. destruct Hr as [Hb Hon].
  apply on_user_spec, is_row_of_spec in Hon. destruct Hon as [Hu _].
  exact (Hno b Hb Hu).
Qed.

(** The computed status is 'done' only for a module whose record says so. *)
Lemma module_statuses_status_done db u m r :
  DesignV1.module_statuses_status db u m r = done <->
  option_map ump.status r = Some done.
Proof.
  unfold DesignV1.module_statuses_status.
  destruct r as [b|]; simpl.
  - destruct (ump.status b); simpl; (split; [|reflexivity || discriminate]);
      repeat match goal with |- context [if ?c then _ else _] => destruct c end;
      congruence.
  - split; [|discriminate].
    repeat match goal with |- context [if ?c then _ else _] => destruct c end;
      congruence.
Qed.

(** The stored-status projection of a user without records: everything is
    'locked', the first module included. *)
Lemma V2_get_user_modules_no_rows db u x :
  no_rows_of u (db_progress db) ->
  In x (DesignV2.get_user_modules db u) -> um.status x = locked.
Proof.
  intros Hno Hx. apply V2_get_user_modules_In in Hx.
  destruct Hx as (m & r & Hin & ->).
  rewrite (left_join_no_rows _ _ _ _ Hno Hin). reflexivity.
Qed.

Lemma inner_join_In {A B : Type} (on : A -> B -> bool) l r a b :
  In (a, b) (inner_join on l r) <-> In a l /\ In b r /\ on a b = true.
Proof.
  unfold inner_join. rewrite in_flat_map. split.
  - intros (a' & Ha' & Hin). apply in_map_iff in Hin.
    destruct Hin as (b' & Heq & Hb'). inversion Heq; subst.
    apply filter_In in Hb'. tauto.
  - intros (Ha & Hb & Hon). exists a. split; [assumption|].
    apply in_map. apply filter_In. auto.
Qed.

(** X2. The correlated-subquery projection of a user without records, over a
    catalog whose smallest position is 1: 'active' at position 1, 'locked'
    everywhere else. *)
Lemma V1_get_user_modules_first_module_default db u x :
  no_rows_of u (db_progress db) ->
  (forall m, In m (db_modules db) -> 1 <= modules.order_index m) ->
  (exists m1, In m1 (db_modules db) /\ modules.order_index m1 = 1) ->
  In x (DesignV1.get_user_modules db u) ->
  um.status x = if um.order_index x =? 1 then active else locked.
Proof.
  intros Hno Hmin (m1 & Hm1 & Ho1) Hx. apply V1_get_user_modules_In in Hx.
  destruct Hx as (m & r & Hin & ->). simpl.
  rewrite (left_join_no_rows _ _ _ _ Hno Hin).
  apply In_left_join in Hin. destruct Hin as [Hm _].
  unfold DesignV1.module_statuses_status. simpl.
  destruct (modules.order_index m =? 1) eqn:E; [reflexivity|].
  apply Z.eqb_neq in E. specialize (Hmin m Hm).
  rewrite filter_none.
  - assert (Hin1 : In m1 (filter (fun m3 => holds (Some (modules.order_index m3
                                                      <? modules.order_index m)))
                                 (db_modules db))).
    { apply filter_In. split; [assumption|]. simpl.
      replace (modules.order_index m1 <? modules.order_index m) with true;
        [reflexivity|]. symmetry. apply Z.ltb_lt. lia. }
    destruct (filter _ (db_modules db)); [contradiction|reflexivity].
  - intros [b m2] Hb. apply inner_join_In in Hb. destruct Hb as (Hb & _ & _).
    specialize (Hno b Hb). apply N.eqb_neq in Hno. rewrite Hno. reflexivity.
Qed.

(** C1, at its failing input. For a user without any record the
    stored-status [get_user_modules] of the revised design reports every
    module of the seeded catalog as 'locked', the first one included,
    where the correlated-subquery variant reports the first as 'active'. *)
Theorem stored_get_user_modules_new_user_all_locked u :
  map (fun x => (um.order_index x, um.status x))
      (DesignV2.get_user_modules seed_database u)
  = [(1, locked); (2, locked); (3, locked); (4, locked); (5, locked)] /\
  map (fun x => (um.order_index x, um.status x))
      (DesignV1.get_user_modules seed_database u)
  = [(1, active); (2, locked); (3, locked); (4, locked); (5, locked)].
Proof. split; reflexivity. Qed.

(** ** A user without records stays without records *)

Lemma insert_active_user u next now ps r' :
  In r' (DesignV2.insert_active u next now ps) ->
  (exists r, In r ps /\ ump.user_id r' = ump.user_id r) \/ ump.user_id r' = u.
Proof.
  unfold DesignV2.insert_active. destruct (existsb _ ps).
  - intros H. apply in_map_iff in H. destruct H as (r & <- & Hr).
    left. exists r. split; [assumption|].
    destruct (is_row_of u next r && negb (status_eqb (ump.status r) done));
      reflexivity.
  - intros H. apply in_app_or in H. destruct H as [H|[<-|[]]].
    + left. eauto.
    + right. reflexivity.
Qed.

Lemma completeModule_no_rows db u u' m now :
  no_rows_of u (db_progress db) ->
  no_rows_of u (db_progress (fst (DesignV2.completeModule db u' m now))).
Proof.
  intros Hno. unfold DesignV2.completeModule.
  destruct (complete_module_cases db u' m now) as [[_ Hc]|[Hact Hc]].
  - now rewrite Hc.
  - assert (Hu : u' <> u).
    { intros ->. apply select_current_status_Some in Hact.
      destruct Hact as (r & Hr & Hrow & _). apply is_row_of_spec in Hrow.
      exact (Hno r Hr (proj1 Hrow)). }
    assert (Hno_a : no_rows_of u (DesignV2.update_done u' m now (db_progress db))).
    { intros r' Hr'. apply update_done_In in Hr'. destruct Hr' as (r & Hr & ->).
      destruct (is_row_of u' m r); simpl; now apply Hno. }
    destruct (DesignV2.select_next_module_id (db_modules db) m) as [[next|]|e];
      rewrite Hc; simpl; auto.
    intros r' Hr'. apply insert_active_user in Hr'.
    destruct Hr' as [(r & Hr & Heq)|Heq]; rewrite Heq; [now apply Hno_a|assumption].
Qed.

Lemma run_no_rows calls : forall db u,
  no_rows_of u (db_progress db) ->
  no_rows_of u (db_progress (DesignV2.run db calls)).
Proof.
  unfold DesignV2.run.
  induction calls as [|[[u' m] now] calls IH]; intros db u Hno; simpl.
  - exact Hno.
  - apply IH. now apply completeModule_no_rows.
Qed.

(** C3. Prefix invariant: from a state in which the user has no progress
    record, after any sequence of [completeModule] calls (any users, any
    modules, any times), the modules either projection reports as 'done'
    for that user form a prefix of the catalog order. *)
Theorem done_prefix_from_no_rows db u calls :
  no_rows_of u (db_progress db) ->
  done_prefix (DesignV2.get_user_modules (DesignV2.run db calls) u) /\
  done_prefix (DesignV1.get_user_modules (DesignV2.run db calls) u).
Proof.
  intros Hno. pose proof (run_no_rows calls db u Hno) as Hno'.
  split; intros x y Hx Hy _ Hdone; exfalso.
  - rewrite (V2_get_user_modules_no_rows _ _ _ Hno' Hy) in Hdone. discriminate.
  - apply V1_get_user_modules_In in Hy. destruct Hy as (m & r & Hin & ->).
    simpl in Hdone. apply module_statuses_status_done in Hdone.
    rewrite (left_join_no_rows _ _ _ _ Hno' Hin) in Hdone. discriminate.
Qed.

Lemma done_prefix_from_no_rows_witness :
  done_prefix (DesignV2.get_user_modules
                 (DesignV2.run seed_database [(user_a, 1, 10); (user_a, 3, 20)])
                 user_a) /\
  done_prefix (DesignV1.get_user_modules
                 (DesignV2.run seed_database [(user_a, 1, 10); (user_a, 3, 20)])
                 user_a).
Proof.
  apply (done_prefix_from_no_rows seed_database user_a
                                  [(user_a, 1, 10); (user_a, 3, 20)]).
  intros r [].
Defined.

(** ** The three derivations of the status *)

(** On a module of the catalog, [get_module_status] computes the CASE
    expression of the correlated-subquery [get_user_modules]. *)
Lemma get_module_status_catalog db u m r :
  pk_modules (db_modules db) -> uq_user_module (db_progress db) ->
  In (m, r) (left_join (on_user u) (db_modules db) (db_progress db)) ->
  DesignV1.get_module_status db u (modules.id m) =
  DesignV1.module_statuses_status db u m r.
Proof.
  intros Hpk Huq Hin. apply In_left_join in Hin. destruct Hin as [Hm Hr].
  unfold DesignV1.get_module_status.
  rewrite (filter_unique modules.id (fun x => modules.id x =? modules.id m)
                         (db_modules db) m Hpk Hm)
    by (intros y _; apply Z.eqb_eq).
  assert (Hrows : filter (is_row_of u (modules.id m)) (db_progress db) =
                  match r with Some b => [b] | None => [] end).
  { destruct r as [b|].
    - destruct Hr as [Hb Hon]. apply on_user_spec in Hon.
      now apply select_current_status_unique.
    - rewrite <- Hr. apply filter_ext. intros b.
      destruct (on_user u m b) eqn:E.
      + now apply on_user_spec.
      + destruct (is_row_of u (modules.id m) b) eqn:E2; [|reflexivity].
        apply on_user_spec in E2. congruence. }
  rewrite Hrows. destruct r as [b|]; reflexivity.
Qed.

(** C2, refuted as stated: for a new user over the seeded catalog the
    per-row function and the correlated-subquery projection give the first
    module 'active', the stored-status projection gives it 'locked'. *)
Lemma status_derivations_disagree :
  DesignV1.get_module_status seed_database user_a 1 = active /\
  In (um.mk 1 "Welcome Journey"%string None 1 active None None)
     (DesignV1.get_user_modules seed_database user_a) /\
  In (um.mk 1 "Welcome Journey"%string None 1 locked None None)
     (DesignV2.get_user_modules seed_database user_a).
Proof.
  split; [reflexivity|]. split; left; reflexivity.
Qed.

(** The stored-status projection reports what the record says, also where
    the computed status is another one. *)
Example stored_status_is_reported :
  map um.status (DesignV2.get_user_modules db_third_active user_a)
  = [locked; locked; active; locked; locked] /\
  map um.status (DesignV1.get_user_modules db_third_active user_a)
  = [active; locked; locked; locked; locked].
Proof. split; reflexivity. Qed.

(** C2, as the code has it: under the key constraints of the schema, the
    per-row [get_module_status] and the correlated-subquery
    [get_user_modules] give every module of the catalog the same status;
    the stored-status [get_user_modules] lists the same modules in the
    same order and reports a module as 'done' exactly when the other two
    do. *)
Theorem status_derivations_agree db u :
  pk_modules (db_modules db) -> uq_user_module (db_progress db) ->
  (forall x, In x (DesignV1.get_user_modules db u) ->
             um.status x = DesignV1.get_module_status db u (um.id x)) /\
  map um.id (DesignV2.get_user_modules db u) =
  map um.id (DesignV1.get_user_modules db u) /\
  (forall y, In y (DesignV2.get_user_modules db u) ->
             (um.status y = done <->
              DesignV1.get_module_status db u (um.id y) = done)).
Proof.
  intros Hpk Huq. split; [|split].
  - intros x Hx. apply V1_get_user_modules_In in Hx.
    destruct Hx as (m & r & Hin & ->). simpl.
    symmetry. now apply get_module_status_catalog.
  - symmetry. apply get_user_modules_same_modules.
  - intros y Hy. apply V2_get_user_modules_In in Hy.
    destruct Hy as (m & r & Hin & ->). simpl.
    rewrite (get_module_status_catalog db u m r Hpk Huq Hin).
    rewrite module_statuses_status_done.
    destruct r as [b|]; simpl; [|split; discriminate].
    split; congruence.
Qed.

Lemma status_derivations_agree_witness :
  (forall x, In x (DesignV1.get_user_modules db_successor_done user_a) ->
             um.status x = DesignV1.get_module_status db_successor_done user_a (um.id x)) /\
  map um.id (DesignV2.get_user_modules db_successor_done user_a) =
  map um.id (DesignV1.get_user_modules db_successor_done user_a) /\
  (forall y, In y (DesignV2.get_user_modules db_successor_done user_a) ->
             (um.status y = done <->
              DesignV1.get_module_status db_successor_done user_a (um.id y) = done)).
Proof.
  apply (status_derivations_agree db_successor_done user_a).
  - unfold pk_modules. simpl. nodup_concrete.
  - unfold uq_user_module. simpl. nodup_concrete.
Defined.

(** ** The progression invariant of [complete_module] *)

Lemma update_done_In_cases u m now ps r' :
  In r' (DesignV2.update_done u m now ps) ->
  In r' ps \/ (is_row_of u m r' = true /\ ump.status r' = done).
Proof.
  intros H. apply update_done_In in H. destruct H as (r & Hr & ->).
  destruct (is_row_of u m r) eqn:E; [right|left]; auto.
Qed.

Lemma insert_active_In_cases u next now ps r' :
  In r' (DesignV2.insert_active u next now ps) ->
  In r' ps \/ (is_row_of u next r' = true /\ ump.status r' = active).
Proof.
  unfold DesignV2.insert_active. destruct (existsb _ ps).
  - intros H. apply in_map_iff in H. destruct H as (r & <- & Hr).
    destruct (is_row_of u next r) eqn:E; simpl; [|auto].
    destruct (negb (status_eqb (ump.status r) done)); [right|left]; auto.
  - intros H. apply in_app_or in H. destruct H as [H|[<-|[]]]; [auto|right].
    split; [|reflexivity]. apply is_row_of_spec. auto.
Qed.

(** A record that is 'done' stays 'done' through step (a) and step (c). *)
Lemma update_done_keeps_done u m now db u' x :
  DesignV2.select_current_status db u' x = Some done ->
  DesignV2.select_current_status
    (mkdb (db_modules db) (DesignV2.update_done u m now (db_progress db))) u' x
  = Some done.
Proof.
  unfold DesignV2.select_current_status, DesignV2.update_done. simpl.
  induction (db_progress db) as [|r ps IH]; simpl; [discriminate|].
  destruct (is_row_of u m r) eqn:E.
  - assert (E' : is_row_of u' x (DesignV2.set_done now r) = is_row_of u' x r)
      by reflexivity.
    rewrite E'. destruct (is_row_of u' x r); [reflexivity|exact IH].
  - destruct (is_row_of u' x r); [trivial|exact IH].
Qed.

Lemma insert_active_keeps_done u next now db u' x :
  DesignV2.select_current_status db u' x = Some done ->
  DesignV2.select_current_status
    (mkdb (db_modules db) (DesignV2.insert_active u next now (db_progress db))) u' x
  = Some done.
Proof.
  unfold DesignV2.select_current_status, DesignV2.insert_active. simpl.
  destruct (existsb _ (db_progress db)).
  - induction (db_progress db) as [|r ps IH]; simpl; [discriminate|].
    destruct (is_row_of u next r && negb (status_eqb (ump.status r) done)) eqn:E.
    + assert (E' : is_row_of u' x (DesignV2.set_active now r) = is_row_of u' x r)
        by reflexivity.
      rewrite E'. destruct (is_row_of u' x r); [|exact IH].
      simpl. intros [= Hd]. rewrite Hd in E. simpl in E.
      rewrite andb_false_r in E. discriminate.
    + destruct (is_row_of u' x r); [trivial|exact IH].
  - rewrite filter_app, map_app.
    destruct (filter (is_row_of u' x) (db_progress db)); [discriminate|trivial].
Qed.

Lemma complete_module_keeps_done db u m now db' u' x :
  DesignV2.complete_module db u m now = Ok db' ->
  DesignV2.select_current_status db u' x = Some done ->
  DesignV2.select_current_status db' u' x = Some done.
Proof.
  intros Hok Hd.
  destruct (complete_module_cases db u m now) as [[_ Hc]|[_ Hc]].
  - congruence.
  - destruct (DesignV2.select_next_module_id (db_modules db) m) as [[next|]|e];
      rewrite Hc in Hok; try discriminate; injection Hok as <-.
    + apply (insert_active_keeps_done u next now
               (mkdb (db_modules db)
                     (DesignV2.update_done u m now (db_progress db)))).
      now apply update_done_keeps_done.
    + now apply update_done_keeps_done.
Qed.

(** Rows of another user are not read and not written. *)
Lemma complete_module_other_user db u m now db' u' x :
  u' <> u ->
  DesignV2.complete_module db u m now = Ok db' ->
  filter (is_row_of u' x) (db_progress db') = filter (is_row_of u' x) (db_progress db).
Proof.
  intros Hu Hok.
  destruct (complete_module_cases db u m now) as [[_ Hc]|[_ Hc]].
  - congruence.
  - destruct (DesignV2.select_next_module_id (db_modules db) m) as [[next|]|e];
      rewrite Hc in Hok; try discriminate; injection Hok as <-; simpl.
    + rewrite insert_active_filter_other, update_done_filter_other; congruence.
    + rewrite update_done_filter_other; congruence.
Qed.

(** [complete_module] keeps every user's progression consistent. *)
Lemma complete_module_progression db u m now db' u0 :
  pk_modules (db_modules db) -> uq_order_index (db_modules db) ->
  progression_ok db u0 ->
  DesignV2.complete_module db u m now = Ok db' ->
  progression_ok db' u0.
Proof.
  intros Hpk Huq Hinv Hok.
  pose proof (complete_module_modules _ _ _ _ _ Hok) as Hms.
  intros r' mm m' Hr' Hu' Hst Hmm Hid Hm' Hlt. rewrite Hms in Hmm, Hm'.
  (* an old row: its predecessors were done and stay done *)
  assert (Hold : In r' (db_progress db) ->
                 DesignV2.select_current_status db' u0 (modules.id m') = Some done).
  { intros Hin. apply (complete_module_keeps_done _ _ _ _ _ _ _ Hok).
    now apply (Hinv r' mm m'). }
  destruct (complete_module_cases db u m now) as [[_ Hc]|[Hact Hc]].
  { rewrite Hc in Hok. injection Hok as <-. auto. }
  destruct (select_current_status_Some _ _ _ _ Hact) as (r1 & Hr1 & Hrow1 & Hst1).
  apply is_row_of_spec in Hrow1. destruct Hrow1 as [Hu1 Hm1].
  (* a row of the completed module: the predecessors of an active module *)
  assert (Hcur : is_row_of u m r' = true ->
                 DesignV2.select_current_status db' u0 (modules.id m') = Some done).
  { intros Hrow. apply is_row_of_spec in Hrow. destruct Hrow as [Hur Hmr].
    apply (complete_module_keeps_done _ _ _ _ _ _ _ Hok).
    apply (Hinv r1 mm m'); auto; congruence. }
  destruct (DesignV2.select_next_module_id (db_modules db) m) as [[next|]|e] eqn:Hn;
    rewrite Hc in Hok; try discriminate; injection Hok as Hdb'.
  - rewrite <- Hdb' in Hr'. simpl in Hr'.
    apply insert_active_In_cases in Hr'. destruct Hr' as [Hr'|[Hrow _]].
    + apply update_done_In_cases in Hr'. destruct Hr' as [Hr'|[Hrow _]]; auto.
    + (* the opened successor: its predecessors are those of the completed
         module, and the completed module itself *)
      apply is_row_of_spec in Hrow. destruct Hrow as [Hur Hmr].
      destruct (select_next_module_id_Some _ _ _ Hn) as (rr & s & Hf & Hs & Hids & Hord).
      assert (Hrr : In rr (db_modules db) /\ modules.id rr = m).
      { assert (Hin : In rr (filter (fun x => modules.id x =? m) (db_modules db)))
          by (rewrite Hf; left; reflexivity).
        apply filter_In in Hin. destruct Hin as [Hin E]. apply Z.eqb_eq in E. auto. }
      destruct Hrr as [Hrr Hidrr].
      assert (mm = s) by (apply (NoDup_map_inj modules.id (db_modules db)); auto; congruence).
      subst mm.
      destruct (Z.eq_dec (modules.order_index m') (modules.order_index rr)) as [Heq|Hneq].
      * assert (m' = rr) by (apply (NoDup_map_inj modules.order_index (db_modules db)); auto).
        subst m'. rewrite Hidrr, <- Hu', Hur.
        apply (complete_module_marks_done db u m now); [exact Hact|].
        rewrite Hc, <- Hdb'. reflexivity.
      * apply (complete_module_keeps_done db u m now);
          [rewrite Hc, <- Hdb'; reflexivity|].
        apply (Hinv r1 rr m'); auto; try congruence. lia.
  - rewrite <- Hdb' in Hr'. simpl in Hr'.
    apply update_done_In_cases in Hr'. destruct Hr' as [Hr'|[Hrow _]]; auto.
Qed.

(** [complete_module] keeps the table free of duplicate keys. *)
Lemma complete_module_uq db u m now db' :
  uq_user_module (db_progress db) ->
  DesignV2.complete_module db u m now = Ok db' ->
  uq_user_module (db_progress db').
Proof.
  intros Huq Hok. unfold uq_user_module in *.
  assert (Ha : map (fun r => (ump.user_id r, ump.module_id r))
                   (DesignV2.update_done u m now (db_progress db))
               = map (fun r => (ump.user_id r, ump.module_id r)) (db_progress db)).
  { unfold DesignV2.update_done. rewrite map_map. apply map_ext.
    intros r. destruct (is_row_of u m r); reflexivity. }
  destruct (complete_module_cases db u m now) as [[_ Hc]|[_ Hc]].
  - congruence.
  - destruct (DesignV2.select_next_module_id (db_modules db) m) as [[next|]|e];
      rewrite Hc in Hok; try discriminate; injection Hok as <-; simpl;
      [|now rewrite Ha].
    rewrite <- Ha in Huq. revert Huq.
    generalize (DesignV2.update_done u m now (db_progress db)) as ps.
    intros ps Huq. unfold DesignV2.insert_active.
    destruct (existsb (is_row_of u next) ps) eqn:Hex.
    + rewrite map_map.
      erewrite map_ext; [exact Huq|]. intros r. simpl.
      destruct (is_row_of u next r && negb (status_eqb (ump.status r) done));
        reflexivity.
    + rewrite map_app. simpl. apply NoDup_app.
      * exact Huq.
      * constructor; [intros []|constructor].
      * intros k Hk [<-|[]]. apply in_map_iff in Hk.
        destruct Hk as (r & Hkey & Hr). injection Hkey as Hur Hmr.
        assert (existsb (is_row_of u next) ps = true).
        { apply existsb_exists. exists r. split; [assumption|].
          apply is_row_of_spec. auto. }
        congruence.
Qed.

(** A joined row whose module is recorded as 'done'. *)
Lemma left_join_recorded_done db u m r :
  uq_user_module (db_progress db) ->
  In (m, r) (left_join (on_user u) (db_modules db) (db_progress db)) ->
  DesignV2.select_current_status db u (modules.id m) = Some done ->
  option_map ump.status r = Some done.
Proof.
  intros Huq Hin Hd. apply In_left_join in Hin. destruct Hin as [_ Hr].
  destruct (select_current_status_Some _ _ _ _ Hd) as (c & Hc & Hrow & Hst).
  pose proof (select_current_status_unique db u _ c Huq Hc Hrow) as Hf.
  destruct r as [b|].
  - destruct Hr as [Hb Hon]. apply on_user_spec in Hon.
    assert (Hin : In b (filter (is_row_of u (modules.id m)) (db_progress db)))
      by (apply filter_In; auto).
    rewrite Hf in Hin. destruct Hin as [<-|[]]. simpl. now rewrite Hst.
  - exfalso. apply on_user_spec in Hrow.
    assert (Hin : In c (filter (on_user u m) (db_progress db)))
      by (apply filter_In; auto).
    rewrite Hr in Hin. exact Hin.
Qed.

(** A consistent progression shows a prefix of 'done' modules in both
    projections. *)
Lemma progression_ok_done_prefix db u :
  uq_user_module (db_progress db) -> progression_ok db u ->
  done_prefix (DesignV2.get_user_modules db u) /\
  done_prefix (DesignV1.get_user_modules db u).
Proof.
  intros Huq Hinv.
  assert (Hkey : forall mx rx my ry,
    In (mx, rx) (left_join (on_user u) (db_modules db) (db_progress db)) ->
    In (my, ry) (left_join (on_user u) (db_modules db) (db_progress db)) ->
    modules.order_index mx < modules.order_index my ->
    option_map ump.status ry = Some done ->
    option_map ump.status rx = Some done).
  { intros mx rx my ry Hx Hy Hlt Hd.
    apply (left_join_recorded_done db u mx rx Huq Hx).
    pose proof Hx as Hx'. pose proof Hy as Hy'.
    apply In_left_join in Hx', Hy'. destruct Hx' as [Hmx _], Hy' as [Hmy Hry].
    destruct ry as [b|]; [|discriminate]. destruct Hry as [Hb Hon].
    apply on_user_spec, is_row_of_spec in Hon. destruct Hon as [Hub Hmb].
    simpl in Hd. injection Hd as Hd.
    apply (Hinv b my mx); auto; congruence. }
  split; intros x y Hx Hy Hlt Hd.
  - apply V2_get_user_modules_In in Hx, Hy.
    destruct Hx as (mx & rx & Hx & ->), Hy as (my & ry & Hy & ->). simpl in *.
    assert (Hry : option_map ump.status ry = Some done).
    { destruct ry as [b|]; simpl in *; congruence. }
    rewrite (Hkey mx rx my ry Hx Hy Hlt Hry). reflexivity.
  - apply V1_get_user_modules_In in Hx, Hy.
    destruct Hx as (mx & rx & Hx & ->), Hy as (my & ry & Hy & ->). simpl in *.
    apply module_statuses_status_done. apply module_statuses_status_done in Hd.
    exact (Hkey mx rx my ry Hx Hy Hlt Hd).
Qed.

(** X3. The prefix invariant in general: from any state that satisfies the
    schema constraints and whose progression is consistent for the user,
    every sequence of [completeModule] calls ends in a state whose 'done'
    modules form a prefix of the catalog order. *)
Theorem done_prefix_invariant calls : forall db u,
  pk_modules (db_modules db) -> uq_order_index (db_modules db) ->
  uq_user_module (db_progress db) -> progression_ok db u ->
  done_prefix (DesignV2.get_user_modules (DesignV2.run db calls) u) /\
  done_prefix (DesignV1.get_user_modules (DesignV2.run db calls) u).
Proof.
  unfold DesignV2.run.
  induction calls as [|[[u' m] now] calls IH]; intros db u Hpk Huqo Huq Hinv; simpl.
  - now apply progression_ok_done_prefix.
  - unfold DesignV2.completeModule.
    destruct (DesignV2.complete_module db u' m now) as [db'|e] eqn:Hok; simpl.
    + pose proof (complete_module_modules _ _ _ _ _ Hok) as Hms.
      apply IH.
      * now rewrite Hms.
      * now rewrite Hms.
      * now apply (complete_module_uq db u' m now).
      * now apply (complete_module_progression db u' m now).
    + now apply IH.
Qed.

(** The scenario of the specification, from the state in which the first
    module has been opened: A, A again, C while locked, then B. *)
Example scenario_statuses :
  map um.status
      (DesignV2.get_user_modules
         (DesignV2.run db_started
                       [(user_a, 1, 20); (user_a, 1, 30); (user_a, 3, 40); (user_a, 2, 50)])
         user_a)
  = [done; done; active; locked; locked].
Proof. reflexivity. Qed.

Lemma done_prefix_invariant_witness :
  done_prefix (DesignV2.get_user_modules
                 (DesignV2.run db_started
                               [(user_a, 1, 20); (user_a, 3, 40); (user_a, 2, 50)])
                 user_a) /\
  done_prefix (DesignV1.get_user_modules
                 (DesignV2.run db_started
                               [(user_a, 1, 20); (user_a, 3, 40); (user_a, 2, 50)])
                 user_a).
Proof.
  apply (done_prefix_invariant
           [(user_a, 1, 20); (user_a, 3, 40); (user_a, 2, 50)] db_started user_a).
  - unfold pk_modules. simpl. nodup_concrete.
  - unfold uq_order_index. simpl. nodup_concrete.
  - unfold uq_user_module. simpl. nodup_concrete.
  - intros r m m' [<-|[]] _ _ Hm Hid Hm' Hlt. simpl in Hid.
    simpl in Hm. destruct Hm as [<-|[<-|[<-|[<-|[<-|[]]]]]]; try discriminate.
    exfalso. simpl in Hlt.
    assert (Hmin : forall x, In x seed_modules -> 1 <= modules.order_index x)
      by (simpl; intros x [<-|[<-|[<-|[<-|[<-|[]]]]]]; simpl; lia).
    specialize (Hmin m' Hm'). lia.
Defined.

(** With a gap in the positions the successor lookup finds nothing: the
    successor [complete_module] opens is the module at [order_index + 1]. *)
Example gap_has_no_successor :
  DesignV2.select_next_module_id (db_modules db_gap) 1 = Ok None /\
  map um.status (DesignV2.get_user_modules
                   (fst (DesignV2.completeModule db_gap user_a 1 20)) user_a)
  = [done; locked].
Proof. split; reflexivity. Qed.

(** * Further properties of [complete_module] *)

Lemma filter_map_fixed {A : Type} (q : A -> bool) (f : A -> A) (l : list A) :
  (forall r, q (f r) = q r) -> (forall r, q r = true -> f r = r) ->
  filter q (map f l) = filter q l.
Proof.
  intros Hq Hf. induction l as [|r l IH]; simpl; [reflexivity|].
  rewrite Hq. destruct (q r) eqn:E; [|exact IH].
  rewrite (Hf r E), IH. reflexivity.
Qed.

(** What a successful call leaves in the table: the old rows, each through
    a function that keeps the key, and at most one new row. *)
Lemma complete_module_shape db u m now db' :
  DesignV2.complete_module db u m now = Ok db' ->
  exists (f : ump.row -> ump.row) (extra : list ump.row),
    db_progress db' = map f (db_progress db) ++ extra /\
    (forall r, ump.user_id (f r) = ump.user_id r /\
               ump.module_id (f r) = ump.module_id r /\
               ump.created_at (f r) = ump.created_at r) /\
    (forall r, ump.user_id r <> u -> f r = r) /\
    (forall r t, ump.started_at r = Some t -> ump.started_at (f r) = Some t) /\
    (forall r, In r extra -> ump.user_id r = u) /\
    (List.length extra <= 1)%nat.
Proof.
  intros Hok.
  set (fa := fun r => if is_row_of u m r then DesignV2.set_done now r else r).
  assert (Hfa : forall r, ump.user_id (fa r) = ump.user_id r /\
                          ump.module_id (fa r) = ump.module_id r /\
                          ump.created_at (fa r) = ump.created_at r).
  { intros r. unfold fa. destruct (is_row_of u m r); auto. }
  assert (Hfa_u : forall r, ump.user_id r <> u -> fa r = r).
  { intros r Hr. unfold fa. destruct (is_row_of u m r) eqn:E; [|reflexivity].
    apply is_row_of_spec in E. tauto. }
  assert (Hfa_s : forall r t, ump.started_at r = Some t ->
                              ump.started_at (fa r) = Some t).
  { intros r t Hr. unfold fa. destruct (is_row_of u m r); auto. }
  destruct (complete_module_cases db u m now) as [[_ Hc]|[_ Hc]].
  - rewrite Hc in Hok. injection Hok as <-. exists (fun r => r), [].
    rewrite map_id, app_nil_r. simpl. repeat split; auto. intros r [].
  - destruct (DesignV2.select_next_module_id (db_modules db) m) as [[next|]|e];
      rewrite Hc in Hok; try discriminate; injection Hok as <-; simpl.
    + set (fc := fun r => if is_row_of u next r
                             && negb (status_eqb (ump.status r) done)
                          then DesignV2.set_active now r else r).
      unfold DesignV2.insert_active.
      destruct (existsb _ (DesignV2.update_done u m now (db_progress db))).
      * exists (fun r => fc (fa r)), []. rewrite app_nil_r.
        unfold DesignV2.update_done. rewrite map_map. fold fa.
        split; [reflexivity|]. simpl. repeat split.
        -- unfold fc. destruct (_ && _); simpl; apply Hfa.
        -- unfold fc. destruct (_ && _); simpl; apply Hfa.
        -- unfold fc. destruct (_ && _); simpl; apply Hfa.
        -- intros r Hr. rewrite (Hfa_u r Hr). unfold fc.
           destruct (is_row_of u next r) eqn:E; [|reflexivity].
           apply is_row_of_spec in E. tauto.
        -- intros r t Hr. apply Hfa_s in Hr. unfold fc.
           destruct (_ && _); [|exact Hr]. simpl. now rewrite Hr.
        -- intros r [].
        -- lia.
      * exists fa, [ump.mk u next active None (Some now) now now].
        split; [reflexivity|]. simpl. repeat split; try apply Hfa; auto.
        intros r [<-|[]]. reflexivity.
    + exists fa, []. rewrite app_nil_r. split; [reflexivity|]. simpl.
      repeat split; try apply Hfa; auto. intros r [].
Qed.

(** X4. A call for one user leaves the records of every other user exactly
    as they are. *)
Theorem complete_module_other_users_untouched db u m now u' :
  u' <> u ->
  filter (fun r => (ump.user_id r =? u')%N)
         (db_progress (fst (DesignV2.completeModule db u m now)))
  = filter (fun r => (ump.user_id r =? u')%N) (db_progress db).
Proof.
  intros Hu. unfold DesignV2.completeModule.
  destruct (DesignV2.complete_module db u m now) as [db'|e] eqn:Hok;
    [|reflexivity]. simpl.
  destruct (complete_module_shape _ _ _ _ _ Hok)
    as (f & extra & -> & Hkey & Hother & _ & Hextra & _).
  rewrite filter_app. rewrite filter_map_fixed.
  - rewrite (filter_none _ extra); [apply app_nil_r|].
    intros r Hr. apply N.eqb_neq. rewrite (Hextra r Hr). congruence.
  - intros r. now rewrite (proj1 (Hkey r)).
  - intros r E. apply N.eqb_eq in E. apply Hother. congruence.
Qed.

Lemma complete_module_other_users_untouched_witness :
  filter (fun r => (ump.user_id r =? user_a)%N)
         (db_progress (fst (DesignV2.completeModule db_two_users user_b 1 30)))
  = filter (fun r => (ump.user_id r =? user_a)%N) (db_progress db_two_users).
Proof.
  apply (complete_module_other_users_untouched db_two_users user_b 1 30 user_a).
  discriminate.
Defined.

(** X5. A record is never deleted and a [started_at] that is set is never
    changed or cleared: every row is still there after the call, under the
    same key, with the same [created_at] and the same [started_at]. *)
Theorem complete_module_started_at_kept db u m now r t :
  In r (db_progress db) -> ump.started_at r = Some t ->
  exists r', In r' (db_progress (fst (DesignV2.completeModule db u m now))) /\
             ump.user_id r' = ump.user_id r /\
             ump.module_id r' = ump.module_id r /\
             ump.created_at r' = ump.created_at r /\
             ump.started_at r' = Some t.
Proof.
  intros Hr Ht. unfold DesignV2.completeModule.
  destruct (DesignV2.complete_module db u m now) as [db'|e] eqn:Hok; simpl.
  - destruct (complete_module_shape _ _ _ _ _ Hok)
      as (f & extra & -> & Hkey & _ & Hst & _).
    exists (f r). destruct (Hkey r) as (Hu & Hm & Hc).
    repeat split; auto. apply in_or_app. left. now apply in_map.
  - exists r. auto.
Qed.

Lemma complete_module_started_at_kept_witness :
  exists r', In r' (db_progress (fst (DesignV2.completeModule db_started user_a 1 20))) /\
             ump.user_id r' = user_a /\ ump.module_id r' = 1 /\
             ump.created_at r' = 10 /\ ump.started_at r' = Some 10.
Proof.
  apply (complete_module_started_at_kept db_started user_a 1 20
           (ump.mk user_a 1 active None (Some 10) 10 10) 10).
  - left. reflexivity.
  - reflexivity.
Defined.

(** X6. Under UNIQUE(user_id, module_id) a record that is 'done' is frozen:
    the call leaves the row as it is, in every column. *)
Theorem complete_module_done_rows_frozen db u m now r :
  uq_user_module (db_progress db) ->
  In r (db_progress db) -> ump.status r = done ->
  In r (db_progress (fst (DesignV2.completeModule db u m now))).
Proof.
  intros Huq Hr Hst. unfold DesignV2.completeModule.
  destruct (complete_module_cases db u m now) as [[_ Hc]|[Hact Hc]].
  { now rewrite Hc. }
  assert (Hnot : is_row_of u m r = false).
  { destruct (is_row_of u m r) eqn:E; [|reflexivity].
    pose proof (select_current_status_unique db u m r Huq Hr E) as Hf.
    unfold DesignV2.select_current_status in Hact. rewrite Hf in Hact.
    simpl in Hact. congruence. }
  assert (Ha : In r (DesignV2.update_done u m now (db_progress db))).
  { apply update_done_In. exists r. rewrite Hnot. auto. }
  destruct (DesignV2.select_next_module_id (db_modules db) m) as [[next|]|e];
    rewrite Hc; simpl; auto.
  unfold DesignV2.insert_active. destruct (existsb _ _).
  - apply in_map_iff. exists r. split; [|exact Ha].
    rewrite Hst. simpl. now rewrite andb_false_r.
  - apply in_or_app. auto.
Qed.

Lemma complete_module_done_rows_frozen_witness :
  In (ump.mk user_a 2 done (Some 5) (Some 2) 2 5)
     (db_progress (fst (DesignV2.completeModule db_successor_done user_a 1 9))).
Proof.
  apply (complete_module_done_rows_frozen db_successor_done user_a 1 9).
  - unfold uq_user_module. simpl. nodup_concrete.
  - right. left. reflexivity.
  - reflexivity.
Defined.

(** X7. No sequence of calls deletes a record or creates a second record
    for a key: the keys of the table stay a prefix of the keys afterwards,
    and UNIQUE(user_id, module_id) keeps holding. *)
Theorem run_keeps_keys calls : forall db,
  uq_user_module (db_progress db) ->
  uq_user_module (db_progress (DesignV2.run db calls)) /\
  exists extra,
    map (fun r => (ump.user_id r, ump.module_id r))
        (db_progress (DesignV2.run db calls))
    = map (fun r => (ump.user_id r, ump.module_id r)) (db_progress db) ++ extra.
Proof.
  unfold DesignV2.run.
  induction calls as [|[[u m] now] calls IH]; intros db Huq; simpl.
  - split; [assumption|]. exists []. now rewrite app_nil_r.
  - unfold DesignV2.completeModule.
    destruct (DesignV2.complete_module db u m now) as [db'|e] eqn:Hok; simpl;
      [|now apply IH].
    destruct (IH db' (complete_module_uq _ _ _ _ _ Huq Hok)) as [Huq' [extra' He]].
    split; [assumption|].
    destruct (complete_module_shape _ _ _ _ _ Hok)
      as (f & extra & Hps & Hkey & _).
    exists (map (fun r => (ump.user_id r, ump.module_id r)) extra ++ extra').
    etransitivity; [exact He|].
    rewrite Hps, map_app, map_map, <- app_assoc. f_equal.
    apply map_ext. intros r. destruct (Hkey r) as (-> & -> & _). reflexivity.
Qed.

Lemma run_keeps_keys_witness :
  uq_user_module
    (db_progress (DesignV2.run db_started [(user_a, 1, 20); (user_a, 2, 30)])) /\
  exists extra,
    map (fun r => (ump.user_id r, ump.module_id r))
        (db_progress (DesignV2.run db_started [(user_a, 1, 20); (user_a, 2, 30)]))
    = map (fun r => (ump.user_id r, ump.module_id r)) (db_progress db_started)
      ++ extra.
Proof.
  apply (run_keeps_keys [(user_a, 1, 20); (user_a, 2, 30)] db_started).
  unfold uq_user_module. simpl. nodup_concrete.
Defined.

(** X8. Once done, always done: a module recorded as 'done' for a user is
    still recorded as 'done' after any sequence of calls. *)
Theorem run_keeps_done calls : forall db u x,
  DesignV2.select_current_status db u x = Some done ->
  DesignV2.select_current_status (DesignV2.run db calls) u x = Some done.
Proof.
  unfold DesignV2.run.
  induction calls as [|[[u' m] now] calls IH]; intros db u x Hd; simpl.
  - exact Hd.
  - apply IH. unfold DesignV2.completeModule.
    destruct (DesignV2.complete_module db u' m now) as [db'|e] eqn:Hok; simpl.
    + now apply (complete_module_keeps_done db u' m now).
    + exact Hd.
Qed.

Lemma run_keeps_done_witness :
  DesignV2.select_current_status
    (DesignV2.run db_two_users [(user_a, 1, 30); (user_a, 2, 40); (user_b, 1, 50)])
    user_a 1
  = Some done.
Proof.
  apply (run_keeps_done [(user_a, 1, 30); (user_a, 2, 40); (user_b, 1, 50)]
                        db_two_users user_a 1).
  reflexivity.
Defined.

(** X9. Opening a successor that has no record yet inserts exactly one row:
    'active', started at NOW(), not completed. *)
Theorem complete_module_opens_new_successor db u m next now :
  DesignV2.select_current_status db u m = Some active ->
  DesignV2.select_next_module_id (db_modules db) m = Ok (Some next) ->
  DesignV2.select_current_status db u next = None ->
  DesignV2.completeModule db u m now =
  (mkdb (db_modules db)
        (DesignV2.update_done u m now (db_progress db)
         ++ [ump.mk u next active None (Some now) now now]), None).
Proof.
  intros Hact Hnext Hnone.
  pose proof (select_next_module_id_neq _ _ _ Hnext) as Hne.
  destruct (complete_module_cases db u m now) as [[Hn _]|[_ Hc]]; [congruence|].
  rewrite Hnext in Hc. unfold DesignV2.completeModule. rewrite Hc. simpl.
  unfold DesignV2.insert_active.
  destruct (existsb _ _) eqn:Hex; [|reflexivity].
  exfalso. apply existsb_exists in Hex. destruct Hex as (r & Hr & Hrow).
  assert (Hin : In r (filter (is_row_of u next)
                             (DesignV2.update_done u m now (db_progress db))))
    by (apply filter_In; auto).
  rewrite update_done_filter_other in Hin by congruence.
  apply filter_In in Hin. destruct Hin as [Hin _].
  rewrite select_current_status_None in Hnone. rewrite (Hnone r Hin) in Hrow.
  discriminate.
Qed.

Lemma complete_module_opens_new_successor_witness :
  DesignV2.completeModule db_started user_a 1 20 =
  (mkdb (db_modules db_started)
        (DesignV2.update_done user_a 1 20 (db_progress db_started)
         ++ [ump.mk user_a 2 active None (Some 20) 20 20]), None).
Proof.
  apply (complete_module_opens_new_successor db_started user_a 1 2 20);
    reflexivity.
Defined.

Lemma insert_active_existing u next now ps r :
  uq_user_module ps -> In r ps -> is_row_of u next r = true ->
  ump.status r <> done ->
  filter (is_row_of u next) (DesignV2.insert_active u next now ps)
  = [DesignV2.set_active now r].
Proof.
  intros Huq Hr Hrow Hst.
  pose proof (select_current_status_unique (mkdb [] ps) u next r Huq Hr Hrow) as Hf.
  simpl in Hf. unfold DesignV2.insert_active.
  rewrite (existsb_filter_cons _ _ _ _ Hf).
  assert (Hgen : forall l,
    filter (is_row_of u next)
           (map (fun x => if is_row_of u next x
                             && negb (status_eqb (ump.status x) done)
                          then DesignV2.set_active now x else x) l)
    = map (fun x => if negb (status_eqb (ump.status x) done)
                    then DesignV2.set_active now x else x)
          (filter (is_row_of u next) l)).
  { induction l as [|x l IH]; simpl; [reflexivity|].
    destruct (is_row_of u next x) eqn:E; simpl.
    - destruct (negb (status_eqb (ump.status x) done)); simpl.
      + assert (E' : is_row_of u next (DesignV2.set_active now x) = true) by exact E.
        rewrite E'. now rewrite IH.
      + rewrite E. now rewrite IH.
    - rewrite E. exact IH. }
  rewrite Hgen, Hf. simpl.
  destruct (status_eqb (ump.status r) done) eqn:E; [|reflexivity].
  apply status_eqb_eq in E. contradiction.
Qed.

(** X10. Opening a successor that already has a record which is not 'done'
    (a 'locked' or 'active' one) turns that record 'active', keeps its
    [started_at] when it has one and sets it to NOW() otherwise, and keeps
    its [completed_at] and [created_at]. *)
Theorem complete_module_opens_existing_successor db u m next now r :
  uq_user_module (db_progress db) ->
  DesignV2.select_current_status db u m = Some active ->
  DesignV2.select_next_module_id (db_modules db) m = Ok (Some next) ->
  In r (db_progress db) -> is_row_of u next r = true -> ump.status r <> done ->
  snd (DesignV2.completeModule db u m now) = None /\
  filter (is_row_of u next)
         (db_progress (fst (DesignV2.completeModule db u m now)))
  = [ump.mk u next active (ump.completed_at r)
            (Some (match ump.started_at r with Some t => t | None => now end))
            (ump.created_at r) now].
Proof.
  intros Huq Hact Hnext Hr Hrow Hst.
  pose proof (select_next_module_id_neq _ _ _ Hnext) as Hne.
  destruct (complete_module_cases db u m now) as [[Hn _]|[_ Hc]]; [congruence|].
  rewrite Hnext in Hc. unfold DesignV2.completeModule. rewrite Hc. simpl.
  split; [reflexivity|].
  assert (Hnot : is_row_of u m r = false).
  { destruct (is_row_of u m r) eqn:E; [|reflexivity].
    apply is_row_of_spec in E, Hrow. destruct E, Hrow. congruence. }
  rewrite (insert_active_existing u next now _ r).
  - unfold DesignV2.set_active, coalesce. apply is_row_of_spec in Hrow.
    destruct Hrow as [-> ->]. reflexivity.
  - unfold uq_user_module, DesignV2.update_done. rewrite map_map.
    erewrite map_ext; [exact Huq|]. intros x. simpl.
    destruct (is_row_of u m x); reflexivity.
  - apply update_done_In. exists r. rewrite Hnot. auto.
  - exact Hrow.
  - exact Hst.
Qed.

Lemma complete_module_opens_existing_successor_witness :
  snd (DesignV2.completeModule
         (mkdb seed_modules [ump.mk user_a 1 active None (Some 10) 10 10;
                             ump.mk user_a 2 locked None None 5 5])
         user_a 1 20) = None /\
  filter (is_row_of user_a 2)
         (db_progress
            (fst (DesignV2.completeModule
                    (mkdb seed_modules [ump.mk user_a 1 active None (Some 10) 10 10;
                                        ump.mk user_a 2 locked None None 5 5])
                    user_a 1 20)))
  = [ump.mk user_a 2 active None (Some 20) 5 20].
Proof.
  apply (complete_module_opens_existing_successor
           (mkdb seed_modules [ump.mk user_a 1 active None (Some 10) 10 10;
                               ump.mk user_a 2 locked None None 5 5])
           user_a 1 2 20 (ump.mk user_a 2 locked None None 5 5)).
  - unfold uq_user_module. simpl. nodup_concrete.
  - reflexivity.
  - reflexivity.
  - right. left. reflexivity.
  - reflexivity.
  - discriminate.
Defined.

Lemma complete_module_terminal_witness :
  DesignV2.completeModule db_last_active user_a 5 50 =
  (mkdb (db_modules db_last_active)
        (DesignV2.update_done user_a 5 50 (db_progress db_last_active)), None).
Proof.
  apply (complete_module_terminal db_last_active user_a 5 50
           (modules.mk 5 "Финальный тест"%string None 5)).
  - reflexivity.
  - simpl. intros s [<-|[<-|[<-|[<-|[<-|[]]]]]]; simpl; lia.
  - unfold int4_min, int4_max. simpl. lia.
  - reflexivity.
Defined.

(** X11. A user without records cannot progress: whatever modules the user
    asks to complete, and however often, the database stays as it is. *)
Theorem new_user_cannot_progress calls : forall db u,
  no_rows_of u (db_progress db) ->
  Forall (fun c : DesignV2.call => fst (fst c) = u) calls ->
  DesignV2.run db calls = db.
Proof.
  unfold DesignV2.run.
  induction calls as [|[[u' m] now] calls IH]; intros db u Hno Hall; simpl.
  - reflexivity.
  - apply Forall_cons_iff in Hall. destruct Hall as [Hu Hall'].
    simpl in Hu. subst u'.
    assert (Hnoop : DesignV2.completeModule db u m now = (db, None)).
    { unfold DesignV2.completeModule. rewrite complete_module_not_active;
        [reflexivity|].
      intros Hact. apply select_current_status_Some in Hact.
      destruct Hact as (r & Hr & Hrow & _). apply is_row_of_spec in Hrow.
      exact (Hno r Hr (proj1 Hrow)). }
    rewrite Hnoop. simpl. now apply (IH db u).
Qed.

Lemma new_user_cannot_progress_witness :
  DesignV2.run db_two_users [(5%N, 1, 10); (5%N, 2, 20); (5%N, 1, 30)] = db_two_users.
Proof.
  apply (new_user_cannot_progress [(5%N, 1, 10); (5%N, 2, 20); (5%N, 1, 30)]
                                  db_two_users 5%N).
  - intros r [<-|[<-|[<-|[]]]]; discriminate.
  - repeat constructor.
Defined.

(** X12. The one way a call fails. Over a catalog that satisfies its primary
    key and whose positions are INTEGER values, [completeModule] throws
    exactly when the module is 'active' for the user and sits at position
    2147483647, and the error is "integer out of range". *)
Theorem completeModule_throws_iff db u m now e :
  pk_modules (db_modules db) ->
  (forall x, In x (db_modules db) ->
             int4_min <= modules.order_index x <= int4_max) ->
  (snd (DesignV2.completeModule db u m now) = Some e <->
   e = IntegerOutOfRange /\
   DesignV2.select_current_status db u m = Some active /\
   exists x, In x (db_modules db) /\ modules.id x = m /\
             modules.order_index x = int4_max).
Proof.
  intros Hpk Hrange.
  assert (Hnext :
    (exists x, filter (fun y => modules.id y =? m) (db_modules db) = [x] /\
               In x (db_modules db) /\ modules.id x = m)
    \/ filter (fun y => modules.id y =? m) (db_modules db) = []).
  { destruct (filter (fun y => modules.id y =? m) (db_modules db)) as [|x xs] eqn:Hf;
      [right; reflexivity|left].
    assert (Hin : In x (filter (fun y => modules.id y =? m) (db_modules db)))
      by (rewrite Hf; left; reflexivity).
    apply filter_In in Hin. destruct Hin as [Hin E]. apply Z.eqb_eq in E.
    exists x. rewrite <- Hf. split; [|auto].
    apply (filter_unique modules.id); auto.
    intros y _. rewrite Z.eqb_eq. split; congruence. }
  unfold DesignV2.completeModule.
  destruct (complete_module_cases db u m now) as [[Hn Hc]|[Hact Hc]].
  { rewrite Hc. simpl. split; [discriminate|]. intros (_ & Hact & _). congruence. }
  unfold DesignV2.select_next_module_id in Hc.
  destruct Hnext as [(x & Hf & Hx & Hid)|Hf]; rewrite Hf in Hc; simpl in Hc.
  - unfold int4pl in Hc. cbv zeta in Hc. specialize (Hrange x Hx).
    destruct ((int4_min <=? modules.order_index x + 1)
              && (modules.order_index x + 1 <=? int4_max)) eqn:E.
    + simpl in Hc.
      assert (Hlt : modules.order_index x < int4_max).
      { apply andb_true_iff in E. destruct E as [_ E]. apply Z.leb_le in E. lia. }
      destruct (select_into _) as [next|]; rewrite Hc; simpl;
        (split; [discriminate|]);
        intros (_ & _ & y & Hy & Hidy & Hoy);
        assert (y = x) by (apply (NoDup_map_inj modules.id (db_modules db)); auto;
                           congruence);
        subst y; lia.
    + simpl in Hc. rewrite Hc. simpl. split.
      * intros [= <-]. split; [reflexivity|]. split; [assumption|].
        exists x. repeat split; auto.
        apply andb_false_iff in E. unfold int4_min, int4_max in *.
        destruct E as [E|E]; [apply Z.leb_gt in E|apply Z.leb_gt in E]; lia.
      * intros (-> & _). reflexivity.
  - rewrite filter_none in Hc by (intros y _; reflexivity). simpl in Hc.
    rewrite Hc. simpl. split; [discriminate|].
    intros (_ & _ & y & Hy & Hidy & _).
    assert (Hin : In y (filter (fun z => modules.id z =? m) (db_modules db)))
      by (apply filter_In; split; [assumption|now apply Z.eqb_eq]).
    rewrite Hf in Hin. contradiction.
Qed.

Lemma completeModule_throws_iff_witness :
  snd (DesignV2.completeModule db_last_at_int4_max user_a 2 30)
  = Some IntegerOutOfRange <->
  IntegerOutOfRange = IntegerOutOfRange /\
  DesignV2.select_current_status db_last_at_int4_max user_a 2 = Some active /\
  exists x, In x (db_modules db_last_at_int4_max) /\ modules.id x = 2 /\
            modules.order_index x = int4_max.
Proof.
  apply (completeModule_throws_iff db_last_at_int4_max user_a 2 30 IntegerOutOfRange).
  - unfold pk_modules. simpl. nodup_concrete.
  - unfold int4_min, int4_max. simpl. intros x [<-|[<-|[]]]; simpl; lia.
Defined.

Lemma V1_get_user_modules_first_module_default_witness :
  um.status (um.mk 3 "Источник вдохновения"%string None 3 locked None None)
  = if um.order_index (um.mk 3 "Источник вдохновения"%string None 3 locked None None)
       =? 1
    then active else locked.
Proof.
  apply (V1_get_user_modules_first_module_default seed_database 5%N).
  - intros r [].
  - simpl. intros m [<-|[<-|[<-|[<-|[<-|[]]]]]]; simpl; lia.
  - exists (modules.mk 1 "Welcome Journey"%string None 1). split; [left|]; reflexivity.
  - right. right. left. reflexivity.
Defined.

(** * The count of completed predecessors *)

Section DonePredecessors.

Variable db : database.
Variable u : UUID.
Variable o : Z.

(** The WHERE clause of the first count, on a joined pair. *)
Let is_done_before (rm : ump.row * modules.row) : bool :=
  holds (and3 (and3 (Some (ump.user_id (fst rm) =? u)%N)
                    (Some (status_eqb (ump.status (fst rm)) done)))
              (Some (modules.order_index (snd rm) <? o))).

Let joined (ps : list ump.row) : list (ump.row * modules.row) :=
  inner_join (fun r m => modules.id m =? ump.module_id r) ps (db_modules db).

Lemma is_done_before_spec r m :
  is_done_before (r, m) = true <->
  ump.user_id r = u /\ ump.status r = done /\ modules.order_index m < o.
Proof.
  unfold is_done_before. simpl.
  destruct (ump.user_id r =? u)%N eqn:E1;
    destruct (status_eqb (ump.status r) done) eqn:E2;
    destruct (modules.order_index m <? o) eqn:E3; simpl;
    rewrite ?N.eqb_eq, ?N.eqb_neq in E1;
    rewrite ?Z.ltb_lt, ?Z.ltb_ge in E3;
    try (apply status_eqb_eq in E2);
    try (assert (ump.status r <> done)
          by (intros Hd; apply status_eqb_eq in Hd; congruence));
    split; try discriminate; try tauto; intros (? & ? & ?); try lia; congruence.
Qed.

Lemma In_done_before ps m :
  In m (map snd (filter is_done_before (joined ps))) <->
  exists r, In r ps /\ In m (db_modules db) /\
            modules.id m = ump.module_id r /\
            ump.user_id r = u /\ ump.status r = done /\ modules.order_index m < o.
Proof.
  rewrite in_map_iff. split.
  - intros ([r m'] & Heq & Hin). simpl in Heq. subst m'.
    apply filter_In in Hin. destruct Hin as [Hin HP].
    apply inner_join_In in Hin. destruct Hin as (Hr & Hm & Hon).
    apply Z.eqb_eq in Hon. apply is_done_before_spec in HP.
    exists r. tauto.
  - intros (r & Hr & Hm & Hid & Hu & Hd & Hlt). exists (r, m).
    split; [reflexivity|]. apply filter_In. split.
    + apply inner_join_In. repeat split; auto. now apply Z.eqb_eq.
    + apply is_done_before_spec. auto.
Qed.

(** Under the two key constraints no module is counted twice. *)
Lemma NoDup_done_before ps :
  pk_modules (db_modules db) -> uq_user_module ps ->
  NoDup (map snd (filter is_done_before (joined ps))).
Proof.
  intros Hpk. pose proof (NoDup_map_inv _ _ Hpk) as Hms.
  induction ps as [|r ps IH]; intros Huq; [constructor|].
  inversion Huq as [|? ? Hnotin Huq']; subst.
  unfold joined, inner_join. simpl. rewrite filter_app, map_app.
  apply NoDup_app.
  - induction (filter (fun m => modules.id m =? ump.module_id r) (db_modules db))
      as [|m l IHl] eqn:Hl in |- *; [constructor|].
    clear IHl.
    assert (Hsub : forall l0, NoDup l0 ->
      NoDup (map snd (filter is_done_before (map (pair r) l0)))).
    { induction l0 as [|x l0 IH0]; intros Hnd; [constructor|].
      inversion Hnd; subst. simpl. destruct (is_done_before (r, x)); simpl; auto.
      constructor; auto. intros Hin. apply in_map_iff in Hin.
      destruct Hin as ([r' x'] & Heq & Hin). simpl in Heq. subst x'.
      apply filter_In in Hin. destruct Hin as [Hin _].
      apply in_map_iff in Hin. destruct Hin as (y & [= _ ->] & Hy). contradiction. }
    apply Hsub. rewrite <- Hl. now apply NoDup_filter.
  - apply IH. exact Huq'.
  - intros m Hin1 Hin2.
    apply in_map_iff in Hin1. destruct Hin1 as ([r1 m1] & Heq & Hin1).
    simpl in Heq. subst m1. apply filter_In in Hin1. destruct Hin1 as [Hin1 HP1].
    apply in_map_iff in Hin1. destruct Hin1 as (y & [= <- ->] & Hy).
    apply filter_In in Hy. destruct Hy as [_ Hid1]. apply Z.eqb_eq in Hid1.
    apply is_done_before_spec in HP1. destruct HP1 as (Hu1 & _ & _).
    apply (In_done_before ps m) in Hin2.
    destruct Hin2 as (r2 & Hr2 & _ & Hid2 & Hu2 & _ & _).
    apply Hnotin. apply in_map_iff. exists r2. split; [|assumption].
    f_equal; congruence.
Qed.

(** The comparison of the two counts decides whether every preceding
    module is recorded as 'done'. *)
Lemma counts_equal_iff :
  pk_modules (db_modules db) -> uq_user_module (db_progress db) ->
  (Nat.eqb (List.length (filter is_done_before (joined (db_progress db))))
           (List.length (filter (fun m => holds (Some (modules.order_index m <? o)))
                                (db_modules db))) = true
   <->
   forall m', In m' (db_modules db) -> modules.order_index m' < o ->
              DesignV2.select_current_status db u (modules.id m') = Some done).
Proof.
  intros Hpk Huq.
  set (L1 := map snd (filter is_done_before (joined (db_progress db)))).
  set (L2 := filter (fun m => holds (Some (modules.order_index m <? o)))
                    (db_modules db)).
  assert (Hlen : List.length (filter is_done_before (joined (db_progress db)))
                 = List.length L1) by (unfold L1; now rewrite length_map).
  rewrite Hlen.
  assert (Hnd1 : NoDup L1) by (now apply NoDup_done_before).
  assert (Hnd2 : NoDup L2)
    by (apply NoDup_filter; exact (NoDup_map_inv _ _ Hpk)).
  assert (HL2 : forall m, In m L2 <-> In m (db_modules db) /\ modules.order_index m < o).
  { intros m. unfold L2. rewrite filter_In. simpl.
    destruct (modules.order_index m <? o) eqn:E;
      [apply Z.ltb_lt in E|apply Z.ltb_ge in E]; intuition (try discriminate; lia). }
  assert (Hincl : incl L1 L2).
  { intros m Hm. apply In_done_before in Hm. apply HL2.
    destruct Hm as (r & _ & Hm & _ & _ & _ & Hlt). auto. }
  assert (Hdone : forall m, In m (db_modules db) ->
    (In m L1 <-> modules.order_index m < o /\
                 DesignV2.select_current_status db u (modules.id m) = Some done)).
  { intros m Hm. unfold L1. rewrite In_done_before. split.
    - intros (r & Hr & _ & Hid & Hu & Hd & Hlt). split; [assumption|].
      assert (Hrow : is_row_of u (modules.id m) r = true)
        by (apply is_row_of_spec; auto).
      unfold DesignV2.select_current_status.
      rewrite (select_current_status_unique db u _ r Huq Hr Hrow). simpl.
      now rewrite Hd.
    - intros (Hlt & Hd). apply select_current_status_Some in Hd.
      destruct Hd as (r & Hr & Hrow & Hst). apply is_row_of_spec in Hrow.
      exists r. intuition congruence. }
  rewrite Nat.eqb_eq. split.
  - intros Heq m' Hm' Hlt.
    assert (Hin : In m' L1).
    { apply (NoDup_length_incl (l:=L1) (l':=L2) Hnd1); [lia|exact Hincl|].
      apply HL2. auto. }
    apply (Hdone m' Hm') in Hin. tauto.
  - intros Hall. apply Nat.le_antisymm.
    + now apply NoDup_incl_length.
    + apply NoDup_incl_length; [exact Hnd2|].
      intros m Hm. apply HL2 in Hm. destruct Hm as [Hm Hlt].
      apply (Hdone m Hm). auto.
Qed.

End DonePredecessors.

(** The LEFT JOIN partner of a module is the user's record for it. *)
Lemma left_join_status db u m r :
  uq_user_module (db_progress db) ->
  In (m, r) (left_join (on_user u) (db_modules db) (db_progress db)) ->
  DesignV2.select_current_status db u (modules.id m) = option_map ump.status r /\
  filter (is_row_of u (modules.id m)) (db_progress db)
  = match r with Some b => [b] | None => [] end.
Proof.
  intros Huq Hin. apply In_left_join in Hin. destruct Hin as [_ Hr].
  assert (Hrows : filter (is_row_of u (modules.id m)) (db_progress db) =
                  match r with Some b => [b] | None => [] end).
  { destruct r as [b|].
    - destruct Hr as [Hb Hon]. apply on_user_spec in Hon.
      now apply select_current_status_unique.
    - rewrite <- Hr. apply filter_ext. intros b.
      destruct (on_user u m b) eqn:E.
      + now apply on_user_spec.
      + destruct (is_row_of u (modules.id m) b) eqn:E2; [|reflexivity].
        apply on_user_spec in E2. congruence. }
  split; [|exact Hrows].
  unfold DesignV2.select_current_status. rewrite Hrows.
  destruct r; reflexivity.
Qed.

Lemma done_before_ext u o (l : list (ump.row * modules.row)) :
  filter (fun '(ump2, m2) =>
            holds (and3 (and3 (Some (ump.user_id ump2 =? u)%N)
                              (Some (status_eqb (ump.status ump2) done)))
                        (Some (modules.order_index m2 <? o)))) l
  = filter (fun rm =>
              holds (and3 (and3 (Some (ump.user_id (fst rm) =? u)%N)
                                (Some (status_eqb (ump.status (fst rm)) done)))
                          (Some (modules.order_index (snd rm) <? o)))) l.
Proof. apply filter_ext. intros [r m]. reflexivity. Qed.

Lemma module_statuses_status_active db u m r :
  pk_modules (db_modules db) -> uq_user_module (db_progress db) ->
  (DesignV1.module_statuses_status db u m r = active <->
   option_map ump.status r <> Some done /\
   (modules.order_index m = 1 \/
    forall m', In m' (db_modules db) ->
               modules.order_index m' < modules.order_index m ->
               DesignV2.select_current_status db u (modules.id m') = Some done)).
Proof.
  intros Hpk Huq. unfold DesignV1.module_statuses_status.
  pose proof (counts_equal_iff db u (modules.order_index m) Hpk Huq) as Hcnt.
  rewrite done_before_ext.
  destruct (holds (eq3 status_eqb (option_map ump.status r) (Some done))) eqn:Hd.
  - split; [discriminate|]. intros [Hn _]. exfalso. apply Hn.
    destruct r as [b|]; simpl in *; [|discriminate].
    destruct (status_eqb (ump.status b) done) eqn:E; [|discriminate].
    apply status_eqb_eq in E. now rewrite E.
  - assert (Hnd : option_map ump.status r <> Some done).
    { intros H. rewrite H in Hd. discriminate. }
    simpl. destruct (modules.order_index m =? 1) eqn:E1.
    + apply Z.eqb_eq in E1. tauto.
    + apply Z.eqb_neq in E1.
      match goal with
      | |- context [if ?c then active else locked] => destruct c eqn:Hc
      end.
      * split; [|reflexivity]. intros _. split; [assumption|]. right.
        apply Hcnt. exact Hc.
      * split; [discriminate|]. intros [_ [H1|Hall]]; [contradiction|].
        apply Hcnt in Hall. simpl in Hall. congruence.
Qed.

(** X13. The comparison of counts implements the rule of the document.
    Under the key constraints, the correlated-subquery [get_user_modules]
    reports a module as 'done' exactly when the user's record says so, and
    as 'active' exactly when it is not 'done' and either sits at position 1
    or every module of the catalog before it is recorded as 'done' for the
    user; in every other case it is 'locked'. *)
Theorem computed_status_rule db u x :
  pk_modules (db_modules db) -> uq_user_module (db_progress db) ->
  In x (DesignV1.get_user_modules db u) ->
  (um.status x = done <->
   DesignV2.select_current_status db u (um.id x) = Some done) /\
  (um.status x = active <->
   DesignV2.select_current_status db u (um.id x) <> Some done /\
   (um.order_index x = 1 \/
    forall m', In m' (db_modules db) ->
               modules.order_index m' < um.order_index x ->
               DesignV2.select_current_status db u (modules.id m') = Some done)).
Proof.
  intros Hpk Huq Hx. apply V1_get_user_modules_In in Hx.
  destruct Hx as (m & r & Hin & ->). simpl.
  destruct (left_join_status db u m r Huq Hin) as [-> _]. split.
  - apply module_statuses_status_done.
  - now apply module_statuses_status_active.
Qed.

Lemma computed_status_rule_witness :
  (um.status (um.mk 2 "Переключение на себя"%string None 2 active None (Some 20))
   = done <->
   DesignV2.select_current_status db_two_users user_a
     (um.id (um.mk 2 "Переключение на себя"%string None 2 active None (Some 20)))
   = Some done) /\
  (um.status (um.mk 2 "Переключение на себя"%string None 2 active None (Some 20))
   = active <->
   DesignV2.select_current_status db_two_users user_a
     (um.id (um.mk 2 "Переключение на себя"%string None 2 active None (Some 20)))
   <> Some done /\
   (um.order_index (um.mk 2 "Переключение на себя"%string None 2 active None (Some 20))
    = 1 \/
    forall m', In m' (db_modules db_two_users) ->
               modules.order_index m'
               < um.order_index
                   (um.mk 2 "Переключение на себя"%string None 2 active None (Some 20)) ->
               DesignV2.select_current_status db_two_users user_a (modules.id m')
               = Some done)).
Proof.
  apply (computed_status_rule db_two_users user_a).
  - unfold pk_modules. simpl. nodup_concrete.
  - unfold uq_user_module. simpl. nodup_concrete.
  - right. left. reflexivity.
Defined.

(** * What [get_user_modules] lists *)

Lemma insert_by_perm {A : Type} (key : A -> Z) (x : A) (l : list A) :
  Permutation (insert_by key x l) (x :: l).
Proof.
  induction l as [|y l IH]; simpl; [reflexivity|].
  destruct (key x <=? key y); [reflexivity|].
  rewrite IH. apply perm_swap.
Qed.

Lemma order_by_perm {A : Type} (key : A -> Z) (l : list A) :
  Permutation (order_by key l) l.
Proof.
  unfold order_by. induction l as [|x l IH]; simpl; [reflexivity|].
  rewrite insert_by_perm. now constructor.
Qed.

Lemma insert_by_sorted {A : Type} (key : A -> Z) (x : A) (l : list A) :
  Sorted Z.le (map key l) -> Sorted Z.le (map key (insert_by key x l)).
Proof.
  induction l as [|y l IH]; simpl; intros Hs.
  - repeat constructor.
  - destruct (key x <=? key y) eqn:E.
    + simpl. constructor; [exact Hs|]. constructor. now apply Z.leb_le.
    + apply Z.leb_gt in E. inversion Hs as [|? ? Hs' Hhd]; subst.
      simpl. constructor; [now apply IH|].
      destruct l as [|z l]; simpl.
      * constructor. lia.
      * destruct (key x <=? key z); simpl; constructor; [lia|].
        inversion Hhd; subst. assumption.
Qed.

Lemma order_by_sorted {A : Type} (key : A -> Z) (l : list A) :
  Sorted Z.le (map key (order_by key l)).
Proof.
  unfold order_by. induction l as [|x l IH]; simpl; [constructor|].
  now apply insert_by_sorted.
Qed.

(** Under UNIQUE(user_id, module_id) the LEFT JOIN keeps one row per
    module. *)
Lemma left_join_one_per_module db u :
  uq_user_module (db_progress db) ->
  map fst (left_join (on_user u) (db_modules db) (db_progress db)) = db_modules db.
Proof.
  intros Huq. unfold left_join.
  induction (db_modules db) as [|m ms IH]; [reflexivity|].
  cbn [flat_map]. rewrite map_app, IH. clear IH.
  destruct (filter (on_user u m) (db_progress db)) as [|b bs] eqn:Hf;
    [reflexivity|].
  assert (Hin : In b (filter (on_user u m) (db_progress db)))
    by (rewrite Hf; left; reflexivity).
  apply filter_In in Hin. destruct Hin as [Hb Hon]. apply on_user_spec in Hon.
  pose proof (select_current_status_unique db u _ b Huq Hb Hon) as Hone.
  assert (Hsame : filter (on_user u m) (db_progress db)
                  = filter (is_row_of u (modules.id m)) (db_progress db)).
  { apply filter_ext. intros r. destruct (on_user u m r) eqn:E.
    - symmetry. now apply on_user_spec.
    - destruct (is_row_of u (modules.id m) r) eqn:E2; [|reflexivity].
      apply on_user_spec in E2. congruence. }
  rewrite Hsame, Hone in Hf. injection Hf as <-. reflexivity.
Qed.

(** X14. Under UNIQUE(user_id, module_id) both [get_user_modules] functions
    return exactly one row per module of the catalog, whether the user has
    a record for it or not, in ascending [order_index]. *)
Theorem get_user_modules_lists_catalog db u :
  uq_user_module (db_progress db) ->
  Permutation (map um.id (DesignV2.get_user_modules db u))
              (map modules.id (db_modules db)) /\
  Sorted Z.le (map um.order_index (DesignV2.get_user_modules db u)) /\
  Permutation (map um.id (DesignV1.get_user_modules db u))
              (map modules.id (db_modules db)) /\
  Sorted Z.le (map um.order_index (DesignV1.get_user_modules db u)).
Proof.
  intros Huq.
  set (J := left_join (on_user u) (db_modules db) (db_progress db)).
  assert (Hperm : forall (g : modules.row * option ump.row -> um.row),
    (forall mr, um.id (g mr) = modules.id (fst mr)) ->
    Permutation (map um.id (map g (order_by (fun mr => modules.order_index (fst mr)) J)))
                (map modules.id (db_modules db))).
  { intros g Hg. rewrite map_map.
    rewrite (map_ext _ (fun mr => modules.id (fst mr)) Hg).
    pose proof (left_join_one_per_module db u Huq) as Hone. fold J in Hone.
    replace (map modules.id (db_modules db))
      with (map (fun mr : modules.row * option ump.row => modules.id (fst mr)) J)
      by (rewrite <- Hone at 1; now rewrite map_map).
    apply Permutation_map. apply order_by_perm. }
  assert (Hsort : forall (g : modules.row * option ump.row -> um.row),
    (forall mr, um.order_index (g mr) = modules.order_index (fst mr)) ->
    Sorted Z.le (map um.order_index
                     (map g (order_by (fun mr => modules.order_index (fst mr)) J)))).
  { intros g Hg. rewrite map_map.
    rewrite (map_ext _ (fun mr => modules.order_index (fst mr)) Hg).
    apply order_by_sorted. }
  repeat split.
  - apply Hperm. intros [m r]. reflexivity.
  - apply Hsort. intros [m r]. reflexivity.
  - apply Hperm. intros [m r]. reflexivity.
  - apply Hsort. intros [m r]. reflexivity.
Qed.

Lemma get_user_modules_lists_catalog_witness :
  Permutation (map um.id (DesignV2.get_user_modules db_two_users user_b))
              (map modules.id (db_modules db_two_users)) /\
  Sorted Z.le (map um.order_index (DesignV2.get_user_modules db_two_users user_b)) /\
  Permutation (map um.id (DesignV1.get_user_modules db_two_users user_b))
              (map modules.id (db_modules db_two_users)) /\
  Sorted Z.le (map um.order_index (DesignV1.get_user_modules db_two_users user_b)).
Proof.
  apply (get_user_modules_lists_catalog db_two_users user_b).
  unfold uq_user_module. simpl. nodup_concrete.
Defined.

(** X15. Completing a module shows in the projection. After an effective
    call, the stored-status [get_user_modules] has a row for the module
    when it is in the catalog, and every such row is 'done', completed at
    the NOW() of the call. *)
Theorem completed_module_is_reported db u m now :
  uq_user_module (db_progress db) ->
  DesignV2.select_current_status db u m = Some active ->
  snd (DesignV2.completeModule db u m now) = None ->
  (In m (map modules.id (db_modules db)) ->
   exists x, In x (DesignV2.get_user_modules
                     (fst (DesignV2.completeModule db u m now)) u) /\
             um.id x = m) /\
  forall x, In x (DesignV2.get_user_modules
                    (fst (DesignV2.completeModule db u m now)) u) ->
            um.id x = m ->
            um.status x = done /\ um.completed_at x = Some now.
Proof.
  intros Huq Hact Hnone. unfold DesignV2.completeModule in *.
  destruct (DesignV2.complete_module db u m now) as [db'|e] eqn:Hok;
    [|discriminate]. simpl. clear Hnone.
  pose proof (complete_module_uq _ _ _ _ _ Huq Hok) as Huq'.
  pose proof (complete_module_modules _ _ _ _ _ Hok) as Hms.
  split.
  - intros Hm. apply in_map_iff in Hm. destruct Hm as (mm & Hid & Hmm).
    rewrite <- Hms, <- (left_join_one_per_module db' u Huq') in Hmm.
    apply in_map_iff in Hmm. destruct Hmm as ([mm' r] & Heq & Hin).
    simpl in Heq. subst mm'.
    eexists. split.
    + apply V2_get_user_modules_In. exists mm, r. split; [exact Hin|reflexivity].
    + exact Hid.
  - intros x Hx Hid. apply V2_get_user_modules_In in Hx.
    destruct Hx as (mm & r & Hin & ->). simpl in *. subst m.
    destruct (left_join_status db' u mm r Huq' Hin) as [_ Hrows].
    assert (Hdone : filter (is_row_of u (modules.id mm)) (db_progress db')
                    = map (DesignV2.set_done now)
                          (filter (is_row_of u (modules.id mm)) (db_progress db))).
    { destruct (complete_module_cases db u (modules.id mm) now)
        as [[Hn _]|[_ Hc]]; [congruence|].
      destruct (DesignV2.select_next_module_id (db_modules db) (modules.id mm))
        as [[next|]|e] eqn:Hn;
        rewrite Hc in Hok; try discriminate; injection Hok as <-; simpl.
      - rewrite insert_active_filter_other.
        + apply update_done_filter_same.
        + apply select_next_module_id_neq in Hn. congruence.
      - apply update_done_filter_same. }
    rewrite Hdone in Hrows.
    unfold DesignV2.select_current_status in Hact.
    destruct (filter (is_row_of u (modules.id mm)) (db_progress db)) as [|r1 rs];
      [discriminate|].
    destruct r as [b|]; [|discriminate]. simpl in Hrows.
    injection Hrows as <- _. split; reflexivity.
Qed.

Lemma completed_module_is_reported_witness :
  (In 1 (map modules.id (db_modules db_started)) ->
   exists x, In x (DesignV2.get_user_modules
                     (fst (DesignV2.completeModule db_started user_a 1 20)) user_a) /\
             um.id x = 1) /\
  forall x, In x (DesignV2.get_user_modules
                    (fst (DesignV2.completeModule db_started user_a 1 20)) user_a) ->
            um.id x = 1 ->
            um.status x = done /\ um.completed_at x = Some 20.
Proof.
  apply (completed_module_is_reported db_started user_a 1 20).
  - unfold uq_user_module. simpl. nodup_concrete.
  - reflexivity.
  - reflexivity.
Defined.

(** * The trigger of database-design.md *)

(** The trigger does nothing for a row that is not 'done'. *)
Lemma handle_module_completion_not_done depth db OLD NEW now :
  ump.status NEW <> done ->
  Triggers.handle_module_completion (S depth) db OLD NEW now = Some (Ok db).
Proof.
  intros Hst. simpl. unfold Triggers.completes.
  destruct (ump.status NEW); try contradiction; simpl; reflexivity.
Qed.

Lemma insert_active_events_active u next now ps ev :
  In ev (Triggers.insert_active_events u next now ps) ->
  ump.status (snd ev) = active.
Proof.
  unfold Triggers.insert_active_events. destruct (existsb _ ps).
  - intros H. apply in_map_iff in H. destruct H as (r & <- & _). reflexivity.
  - intros [<-|[]]. reflexivity.
Qed.

Lemma fire_nested_noop depth now (events : list Triggers.row_event) : forall db,
  (forall ev, In ev events -> ump.status (snd ev) = active) ->
  fold_left
    (fun acc ev =>
       match acc with
       | Some (Ok d) =>
           Triggers.handle_module_completion (S depth) d (fst ev) (snd ev) now
       | _ => acc
       end)
    events (Some (Ok db))
  = Some (Ok db).
Proof.
  induction events as [|ev events IH]; intros db Hall; [reflexivity|].
  cbn [fold_left].
  rewrite handle_module_completion_not_done.
  - apply IH. intros ev' Hev'. apply Hall. now right.
  - rewrite (Hall ev (or_introl eq_refl)). discriminate.
Qed.

(** X16. The trigger cascade stops after one step. The INSERT of the trigger
    fires the trigger again, but only for a row that is 'active', so the
    nested firing does nothing: with any nesting depth of at least 2 the
    trigger returns, and what it has done is one successor lookup and one
    upsert for a row that has just become 'done', nothing otherwise. *)
Theorem handle_module_completion_one_step depth db OLD NEW now :
  Triggers.handle_module_completion (S (S depth)) db OLD NEW now =
  Some (if Triggers.completes OLD NEW then
          match DesignV2.select_next_module_id (db_modules db) (ump.module_id NEW) with
          | Raise e => Raise e
          | Ok None => Ok db
          | Ok (Some next) =>
              Ok (mkdb (db_modules db)
                       (DesignV2.insert_active (ump.user_id NEW) next now
                                               (db_progress db)))
          end
        else Ok db).
Proof.
  cbn [Triggers.handle_module_completion].
  destruct (Triggers.completes OLD NEW); [|reflexivity].
  destruct (DesignV2.select_next_module_id (db_modules db) (ump.module_id NEW))
    as [[next|]|e]; try reflexivity.
  apply (fire_nested_noop depth now).
  apply insert_active_events_active.
Qed.

(** X17. The trigger and the function do the same. When the UPDATE of step
    (a) has marked the user's 'active' record 'done', firing the trigger
    for the updated row ends in exactly the state, or the error,
    [complete_module] ends in. *)
Theorem trigger_does_what_complete_module_does depth db u m now :
  uq_user_module (db_progress db) ->
  DesignV2.select_current_status db u m = Some active ->
  Triggers.fire_triggers
    (S (S depth))
    (mkdb (db_modules db) (DesignV2.update_done u m now (db_progress db)))
    (Triggers.update_done_events u m now (db_progress db)) now
  = Some (DesignV2.complete_module db u m now).
Proof.
  intros Huq Hact.
  destruct (select_current_status_Some _ _ _ _ Hact) as (r & Hr & Hrow & Hst).
  pose proof (select_current_status_unique db u m r Huq Hr Hrow) as Hf.
  unfold Triggers.fire_triggers, Triggers.update_done_events. rewrite Hf.
  cbn [map fold_left fst snd Triggers.handle_module_completion].
  assert (Hfires : Triggers.completes (Some r) (DesignV2.set_done now r) = true).
  { unfold Triggers.completes. simpl. rewrite Hst. reflexivity. }
  rewrite Hfires. apply is_row_of_spec in Hrow. destruct Hrow as [Hu Hm].
  cbn [ump.module_id ump.user_id DesignV2.set_done db_modules db_progress].
  rewrite Hu, Hm.
  destruct (complete_module_cases db u m now) as [[Hn _]|[_ Hc]]; [congruence|].
  destruct (DesignV2.select_next_module_id (db_modules db) m) as [[next|]|e];
    rewrite Hc; try reflexivity.
  apply (fire_nested_noop depth now).
  apply insert_active_events_active.
Qed.

Lemma trigger_does_what_complete_module_does_witness :
  Triggers.fire_triggers
    2
    (mkdb (db_modules db_two_users)
          (DesignV2.update_done user_b 1 30 (db_progress db_two_users)))
    (Triggers.update_done_events user_b 1 30 (db_progress db_two_users)) 30
  = Some (DesignV2.complete_module db_two_users user_b 1 30).
Proof.
  apply (trigger_does_what_complete_module_does 0 db_two_users user_b 1 30).
  - unfold uq_user_module. simpl. nodup_concrete.
  - reflexivity.
Defined.

(** X18. The upsert of step (c) can be repeated: running it a second time
    with the same NOW() changes nothing. *)
Theorem insert_active_idempotent u next now ps :
  DesignV2.insert_active u next now (DesignV2.insert_active u next now ps)
  = DesignV2.insert_active u next now ps.
Proof.
  assert (Hmap : forall l,
    map (fun r => if is_row_of u next r && negb (status_eqb (ump.status r) done)
                  then DesignV2.set_active now r else r)
        (map (fun r => if is_row_of u next r && negb (status_eqb (ump.status r) done)
                       then DesignV2.set_active now r else r) l)
    = map (fun r => if is_row_of u next r && negb (status_eqb (ump.status r) done)
                    then DesignV2.set_active now r else r) l).
  { intros l. rewrite map_map. apply map_ext. intros r.
    destruct (is_row_of u next r) eqn:E; simpl.
    - destruct (status_eqb (ump.status r) done) eqn:Ed; simpl.
      + rewrite E, Ed. reflexivity.
      + assert (E' : is_row_of u next (DesignV2.set_active now r) = true) by exact E.
        rewrite E'. simpl. unfold DesignV2.set_active. simpl.
        destruct (ump.started_at r); reflexivity.
    - rewrite E. reflexivity. }
  unfold DesignV2.insert_active at 2 3.
  destruct (existsb (is_row_of u next) ps) eqn:Hex.
  - unfold DesignV2.insert_active.
    assert (Hex' : existsb (is_row_of u next)
                     (map (fun r => if is_row_of u next r
                                       && negb (status_eqb (ump.status r) done)
                                    then DesignV2.set_active now r else r) ps) = true).
    { apply existsb_exists in Hex. destruct Hex as (r & Hr & E).
      apply existsb_exists.
      exists (if is_row_of u next r && negb (status_eqb (ump.status r) done)
              then DesignV2.set_active now r else r).
      split; [apply in_map_iff; exists r; split; [reflexivity|assumption]|].
      destruct (_ && _); exact E. }
    rewrite Hex'. apply Hmap.
  - unfold DesignV2.insert_active.
    assert (E : is_row_of u next (ump.mk u next active None (Some now) now now) = true)
      by (apply is_row_of_spec; auto).
    rewrite existsb_app. simpl. rewrite E, orb_true_r.
    rewrite map_app. simpl. rewrite E. simpl. f_equal.
    rewrite <- (map_id ps) at 2. apply map_ext_in. intros r Hr.
    destruct (is_row_of u next r) eqn:Er; [|reflexivity].
    assert (existsb (is_row_of u next) ps = true)
      by (apply existsb_exists; eauto).
    congruence.
Qed.

(** * The view and the caches *)

(** At a user argument that is not NULL the two embeddings of
    [get_module_status] are the same function. *)
Lemma Views_get_module_status_Some db u x :
  Views.get_module_status db (Some u) x = DesignV1.get_module_status db u x.
Proof.
  unfold Views.get_module_status, DesignV1.get_module_status.
  rewrite (filter_ext
             (fun r => holds (and3 (eq3 N.eqb (Some (ump.user_id r)) (Some u))
                                   (Some (ump.module_id r =? x))))
             (is_row_of u x)).
  - reflexivity.
  - intros r. unfold is_row_of. simpl.
    destruct (ump.user_id r =? u)%N, (ump.module_id r =? x); reflexivity.
Qed.

(** With a record that is 'done', [get_module_status] answers 'done'. *)
Lemma get_module_status_done db u x r :
  uq_user_module (db_progress db) ->
  In r (db_progress db) -> is_row_of u x r = true -> ump.status r = done ->
  DesignV1.get_module_status db u x = done.
Proof.
  intros Huq Hr Hrow Hst. unfold DesignV1.get_module_status.
  rewrite (select_current_status_unique db u x r Huq Hr Hrow). simpl.
  rewrite Hst. reflexivity.
Qed.

Lemma view_In db x :
  In x (Views.user_modules_with_status db) <->
  exists m r,
    In (m, r) (left_join (fun m r => modules.id m =? ump.module_id r)
                         (db_modules db) (db_progress db)) /\
    x = uv.mk (modules.id m) (modules.title m) (modules.description m)
              (modules.order_index m)
              (coalesce
                 (if holds (eq3 status_eqb (option_map ump.status r) (Some done))
                  then Some done
                  else Some (Views.get_module_status db (option_map ump.user_id r)
                                                     (modules.id m)))
                 (Views.get_module_status db None (modules.id m)))
              (match r with Some b => ump.completed_at b | None => None end)
              (match r with Some b => ump.started_at b | None => None end)
              (option_map ump.user_id r).
Proof.
  unfold Views.user_modules_with_status. rewrite in_map_iff. split.
  - intros ([m r] & <- & Hin). apply In_order_by in Hin. eauto.
  - intros (m & r & Hin & ->). exists (m, r). split; [reflexivity|].
    apply In_order_by. exact Hin.
Qed.

(** X19. What the view holds for a user. Under UNIQUE(user_id, module_id),
    the rows of [user_modules_with_status] with a given [user_id] are the
    user's records on modules of the catalog, one row each, with the
    status [get_module_status] computes and the timestamps of the record.
    A module the user has no record for has no row with that [user_id]. *)
Theorem view_rows_of_user db u x :
  uq_user_module (db_progress db) ->
  (In x (Views.user_modules_with_status db) /\ uv.user_id x = Some u <->
   exists m r,
     In m (db_modules db) /\ In r (db_progress db) /\
     ump.user_id r = u /\ ump.module_id r = modules.id m /\
     x = uv.mk (modules.id m) (modules.title m) (modules.description m)
               (modules.order_index m)
               (DesignV1.get_module_status db u (modules.id m))
               (ump.completed_at r) (ump.started_at r) (Some u)).
Proof.
  intros Huq.
  assert (Hstatus : forall m r,
    In r (db_progress db) -> ump.module_id r = modules.id m ->
    coalesce
      (if holds (eq3 status_eqb (Some (ump.status r)) (Some done))
       then Some done
       else Some (Views.get_module_status db (Some (ump.user_id r)) (modules.id m)))
      (Views.get_module_status db None (modules.id m))
    = DesignV1.get_module_status db (ump.user_id r) (modules.id m)).
  { intros m r Hr Hid. simpl.
    destruct (status_eqb (ump.status r) done) eqn:E; simpl.
    - symmetry. apply (get_module_status_done db _ _ r Huq Hr).
      + apply is_row_of_spec. auto.
      + now apply status_eqb_eq.
    - apply Views_get_module_status_Some. }
  rewrite view_In. split.
  - intros [(m & r & Hin & ->) Hu]. simpl in Hu.
    apply In_left_join in Hin. destruct Hin as [Hm Hr].
    destruct r as [b|]; [|discriminate]. simpl in Hu. injection Hu as Hu.
    destruct Hr as [Hb Hon]. apply Z.eqb_eq in Hon.
    exists m, b. repeat split; auto.
    cbn [option_map]. rewrite (Hstatus m b Hb (eq_sym Hon)), Hu. reflexivity.
  - intros (m & r & Hm & Hr & Hu & Hid & ->). split; [|reflexivity].
    exists m, (Some r). split.
    + apply In_left_join. split; [assumption|]. split; [assumption|].
      apply Z.eqb_eq. congruence.
    + cbn [option_map]. rewrite (Hstatus m r Hr Hid), Hu. reflexivity.
Qed.

Lemma view_rows_of_user_witness :
  In (uv.mk 1 "Welcome Journey"%string None 1 active None (Some 15) (Some user_b))
     (Views.user_modules_with_status db_two_users) /\
  uv.user_id (uv.mk 1 "Welcome Journey"%string None 1 active None (Some 15)
                    (Some user_b)) = Some user_b <->
  exists m r,
    In m (db_modules db_two_users) /\ In r (db_progress db_two_users) /\
    ump.user_id r = user_b /\ ump.module_id r = modules.id m /\
    uv.mk 1 "Welcome Journey"%string None 1 active None (Some 15) (Some user_b)
    = uv.mk (modules.id m) (modules.title m) (modules.description m)
            (modules.order_index m)
            (DesignV1.get_module_status db_two_users user_b (modules.id m))
            (ump.completed_at r) (ump.started_at r) (Some user_b).
Proof.
  apply (view_rows_of_user db_two_users user_b).
  unfold uq_user_module. simpl. nodup_concrete.
Defined.

(** X20. The rows of the view without a user. A row of
    [user_modules_with_status] has a NULL [user_id] exactly for a module
    of the catalog that no user has a record for; a module somebody has
    started has no such row, so a user without records finds no row for
    it in the view. *)
Theorem view_rows_without_user db m :
  In m (db_modules db) ->
  ((exists x, In x (Views.user_modules_with_status db) /\
              uv.id x = modules.id m /\ uv.title x = modules.title m /\
              uv.order_index x = modules.order_index m /\
              uv.user_id x = None)
   <->
   forall r, In r (db_progress db) -> ump.module_id r <> modules.id m).
Proof.
  intros Hm. split.
  - intros (x & Hx & Hid & _ & _ & Hu) r Hr Hmod.
    apply view_In in Hx. destruct Hx as (m0 & r0 & Hin & ->). simpl in *.
    destruct r0 as [b|]; [discriminate|].
    apply In_left_join in Hin. destruct Hin as [_ Hnone].
    assert (Hin : In r (filter (fun r => modules.id m0 =? ump.module_id r)
                               (db_progress db))).
    { apply filter_In. split; [assumption|]. apply Z.eqb_eq. congruence. }
    rewrite Hnone in Hin. exact Hin.
  - intros Hnone. eexists. split.
    + apply view_In. exists m, None. split; [|reflexivity].
      apply In_left_join. split; [assumption|].
      apply filter_none. intros r Hr. apply Z.eqb_neq.
      intros Heq. apply (Hnone r Hr). congruence.
    + simpl. auto.
Qed.

Lemma view_rows_without_user_witness :
  (exists x, In x (Views.user_modules_with_status db_two_users) /\
             uv.id x = 3 /\ uv.title x = "Источник вдохновения"%string /\
             uv.order_index x = 3 /\ uv.user_id x = None)
  <->
  forall r, In r (db_progress db_two_users) -> ump.module_id r <> 3.
Proof.
  apply (view_rows_without_user
           db_two_users (modules.mk 3 "Источник вдохновения"%string None 3)).
  right. right. left. reflexivity.
Defined.

Lemma cache_from_In db m u r :
  In ((m, u), r) (Views.cache_from db) <->
  In m (db_modules db) /\
  (exists r0, In r0 (db_progress db) /\ ump.user_id r0 = u) /\
  match r with
  | Some b => In b (db_progress db) /\ ump.module_id b = modules.id m /\
              ump.user_id b = u
  | None => forall b, In b (db_progress db) ->
                      ~ (ump.module_id b = modules.id m /\ ump.user_id b = u)
  end.
Proof.
  unfold Views.cache_from. rewrite In_left_join, in_prod_iff.
  unfold Views.distinct_user_id. rewrite nodup_In, in_map_iff. simpl.
  assert (Hon : forall b, (modules.id m =? ump.module_id b)
                          && (ump.user_id b =? u)%N = true <->
                          ump.module_id b = modules.id m /\ ump.user_id b = u).
  { intros b. rewrite andb_true_iff, Z.eqb_eq, N.eqb_eq. intuition congruence. }
  split.
  - intros [[Hm (r0 & Hu & Hr0)] Hr]. split; [assumption|]. split; [eauto|].
    destruct r as [b|].
    + destruct Hr as [Hb Hb']. apply Hon in Hb'. tauto.
    + intros b Hb Hc. apply Hon in Hc.
      assert (Hin : In b (filter (fun r => (modules.id m =? ump.module_id r)
                                           && (ump.user_id r =? u)%N)
                                 (db_progress db))) by (apply filter_In; auto).
      rewrite Hr in Hin. exact Hin.
  - intros (Hm & (r0 & Hr0 & Hu) & Hr). split; [split; eauto|].
    destruct r as [b|].
    + destruct Hr as (Hb & Hmod & Hub). split; [assumption|]. apply Hon. auto.
    + apply filter_none. intros b Hb.
      destruct ((modules.id m =? ump.module_id b) && (ump.user_id b =? u)%N) eqn:E;
        [|reflexivity].
      apply Hon in E. exfalso. exact (Hr b Hb E).
Qed.

(** X21. What the cache of the revised document holds for a user. The rows
    of [user_modules_status_cache] with a given [user_id] are the user's
    records on modules of the catalog with their stored status; a module
    the user has no record for appears with a NULL [user_id], as
    'locked'. *)
Theorem cache_v2_rows db u x :
  (In x (Views.user_modules_status_cache_v2 db) /\ cache.user_id x = Some u <->
   exists m r,
     In m (db_modules db) /\ In r (db_progress db) /\
     ump.user_id r = u /\ ump.module_id r = modules.id m /\
     x = cache.mk (Some u) (modules.id m) (modules.order_index m) (ump.status r))
  /\
  (In x (Views.user_modules_status_cache_v2 db) -> cache.user_id x = None ->
   cache.status x = locked).
Proof.
  unfold Views.user_modules_status_cache_v2. split; [split|].
  - intros [Hx Hu]. apply in_map_iff in Hx.
    destruct Hx as ([[m u'] r] & <- & Hin). simpl in Hu.
    apply cache_from_In in Hin. destruct Hin as (Hm & _ & Hr).
    destruct r as [b|]; [|discriminate]. simpl in Hu. injection Hu as Hu.
    destruct Hr as (Hb & Hmod & _). exists m, b. simpl. rewrite Hu.
    repeat split; auto.
  - intros (m & r & Hm & Hr & Hu & Hmod & ->). split; [|reflexivity].
    apply in_map_iff. exists ((m, u), Some r). split.
    + simpl. now rewrite Hu.
    + apply cache_from_In. split; [assumption|]. split; [eauto|]. auto.
  - intros Hx Hu. apply in_map_iff in Hx.
    destruct Hx as ([[m u'] r] & <- & _). simpl in *.
    destruct r; [discriminate|reflexivity].
Qed.

(** X22. What the cache of database-design.md holds for a user. Under the
    key constraints, the rows of [user_modules_status_cache] with a given
    [user_id] are the user's records on modules of the catalog, with the
    status [get_module_status] computes. *)
Theorem cache_rows_of_user db u x :
  pk_modules (db_modules db) -> uq_user_module (db_progress db) ->
  (In x (Views.user_modules_status_cache db) /\ cache.user_id x = Some u <->
   exists m r,
     In m (db_modules db) /\ In r (db_progress db) /\
     ump.user_id r = u /\ ump.module_id r = modules.id m /\
     x = cache.mk (Some u) (modules.id m) (modules.order_index m)
                  (DesignV1.get_module_status db u (modules.id m))).
Proof.
  intros Hpk Huq.
  assert (Hjoin : forall m r, In m (db_modules db) -> In r (db_progress db) ->
    ump.module_id r = modules.id m ->
    In (m, Some r) (left_join (on_user (ump.user_id r)) (db_modules db)
                              (db_progress db))).
  { intros m r Hm Hr Hmod. apply In_left_join. split; [assumption|].
    split; [assumption|]. apply on_user_spec, is_row_of_spec. auto. }
  unfold Views.user_modules_status_cache. split.
  - intros [Hx Hu]. apply in_map_iff in Hx.
    destruct Hx as ([[m u'] r] & <- & Hin). simpl in Hu.
    apply cache_from_In in Hin. destruct Hin as (Hm & _ & Hr).
    destruct r as [b|]; [|discriminate]. simpl in Hu. injection Hu as Hu.
    destruct Hr as (Hb & Hmod & _). exists m, b. repeat split; auto.
    rewrite <- Hu.
    rewrite (get_module_status_catalog db _ m (Some b) Hpk Huq (Hjoin m b Hm Hb Hmod)).
    reflexivity.
  - intros (m & r & Hm & Hr & Hu & Hmod & ->). split; [|reflexivity].
    apply in_map_iff. exists ((m, u), Some r). split.
    + rewrite <- Hu.
      rewrite (get_module_status_catalog db _ m (Some r) Hpk Huq (Hjoin m r Hm Hr Hmod)).
      reflexivity.
    + apply cache_from_In. split; [assumption|]. split; [eauto|]. auto.
Qed.

Lemma cache_rows_of_user_witness :
  In (cache.mk (Some user_a) 2 2 active) (Views.user_modules_status_cache db_two_users)
  /\ cache.user_id (cache.mk (Some user_a) 2 2 active) = Some user_a <->
  exists m r,
    In m (db_modules db_two_users) /\ In r (db_progress db_two_users) /\
    ump.user_id r = user_a /\ ump.module_id r = modules.id m /\
    cache.mk (Some user_a) 2 2 active
    = cache.mk (Some user_a) (modules.id m) (modules.order_index m)
               (DesignV1.get_module_status db_two_users user_a (modules.id m)).
Proof.
  apply (cache_rows_of_user db_two_users user_a).
  - unfold pk_modules. simpl. nodup_concrete.
  - unfold uq_user_module. simpl. nodup_concrete.
Defined.

(** X23. The rows of that cache without a record do not look at anybody's
    progress: with a NULL [user_id] the first count is 0, so the status is
    'active' only at position 1 or when no module precedes, and 'locked'
    otherwise, also for a user who has completed every module before. *)
Theorem cache_rows_without_record db x :
  In x (Views.user_modules_status_cache db) -> cache.user_id x = None ->
  (cache.status x = active <->
   cache.order_index x = 1 \/
   forall m, In m (db_modules db) -> cache.order_index x <= modules.order_index m)
  /\ cache.status x <> done.
Proof.
  unfold Views.user_modules_status_cache. intros Hx Hu.
  apply in_map_iff in Hx. destruct Hx as ([[m u'] r] & <- & _).
  simpl in Hu. destruct r as [b|]; [discriminate|]. simpl.
  rewrite filter_none
    by (intros [r2 m2] _; simpl;
        destruct (status_eqb (ump.status r2) done),
                 (modules.order_index m2 <? modules.order_index m); reflexivity).
  simpl.
  destruct (modules.order_index m =? 1) eqn:E1.
  - apply Z.eqb_eq in E1. split; [tauto|discriminate].
  - apply Z.eqb_neq in E1.
    destruct (filter _ (db_modules db)) as [|m3 l] eqn:Hf; simpl.
    + split; [|discriminate]. split; [|reflexivity]. intros _. right.
      intros m0 Hm0. destruct (Z.lt_ge_cases (modules.order_index m0)
                                              (modules.order_index m)) as [Hlt|Hge];
        [|exact Hge].
      exfalso.
      match type of Hf with
      | filter ?f ?l = _ => assert (Hin : In m0 (filter f l))
      end.
      { apply filter_In. split; [assumption|].
        apply Z.ltb_lt in Hlt. now rewrite Hlt. }
      rewrite Hf in Hin. exact Hin.
    + split; [|discriminate]. split; [discriminate|].
      intros [H1|Hall]; [contradiction|]. exfalso.
      match type of Hf with
      | filter ?f ?l = _ => assert (Hin : In m3 (filter f l))
          by (rewrite Hf; left; reflexivity)
      end.
      apply filter_In in Hin. destruct Hin as [Hm3 Hlt]. simpl in Hlt.
      destruct (modules.order_index m3 <? modules.order_index m) eqn:E;
        [|discriminate].
      apply Z.ltb_lt in E. specialize (Hall m3 Hm3). lia.
Qed.

Lemma cache_rows_without_record_witness :
  (cache.status (cache.mk None 3 3 locked) = active <->
   cache.order_index (cache.mk None 3 3 locked) = 1 \/
   forall m, In m (db_modules db_two_users) ->
             cache.order_index (cache.mk None 3 3 locked) <= modules.order_index m)
  /\ cache.status (cache.mk None 3 3 locked) <> done.
Proof.
  apply (cache_rows_without_record db_two_users (cache.mk None 3 3 locked)).
  - vm_compute. right. right. right. right. left. reflexivity.
  - reflexivity.
Defined.

Lemma cache_v2_rows_witness :
  (In (cache.mk (Some user_b) 1 1 active)
      (Views.user_modules_status_cache_v2 db_two_users) /\
   cache.user_id (cache.mk (Some user_b) 1 1 active) = Some user_b <->
   exists m r,
     In m (db_modules db_two_users) /\ In r (db_progress db_two_users) /\
     ump.user_id r = user_b /\ ump.module_id r = modules.id m /\
     cache.mk (Some user_b) 1 1 active
     = cache.mk (Some user_b) (modules.id m) (modules.order_index m) (ump.status r))
  /\
  (In (cache.mk (Some user_b) 1 1 active)
      (Views.user_modules_status_cache_v2 db_two_users) ->
   cache.user_id (cache.mk (Some user_b) 1 1 active) = None ->
   cache.status (cache.mk (Some user_b) 1 1 active) = locked).
Proof.
  exact (cache_v2_rows db_two_users user_b (cache.mk (Some user_b) 1 1 active)).
Defined.

(** * Row level security on the read path *)

Lemma left_join_same_partners {A B : Type} (on : A -> B -> bool) l r1 r2 :
  (forall a, filter (on a) r1 = filter (on a) r2) ->
  left_join on l r1 = left_join on l r2.
Proof.
  intros H. unfold left_join. apply flat_map_ext. intros a. now rewrite H.
Qed.

Lemma filter_filter_implied {A : Type} (p q : A -> bool) (l : list A) :
  (forall x, p x = true -> q x = true) ->
  filter p (filter q l) = filter p l.
Proof.
  intros H. induction l as [|x l IH]; simpl; [reflexivity|].
  destruct (q x) eqn:Eq; simpl.
  - now rewrite IH.
  - destruct (p x) eqn:Ep; [|exact IH].
    apply H in Ep. congruence.
Qed.

Lemma filter_filter_excluded {A : Type} (p q : A -> bool) (l : list A) :
  (forall x, p x = true -> q x = false) ->
  filter p (filter q l) = [].
Proof.
  intros H. apply filter_none. intros x Hx. apply filter_In in Hx.
  destruct (p x) eqn:Ep; [|reflexivity]. apply H in Ep. destruct Hx. congruence.
Qed.

Lemma inner_join_filter_implied {A B : Type} (on : A -> B -> bool)
      (P : A * B -> bool) (q : A -> bool) l r :
  (forall a b, P (a, b) = true -> q a = true) ->
  filter P (inner_join on (filter q l) r) = filter P (inner_join on l r).
Proof.
  intros H. unfold inner_join. induction l as [|a l IH]; simpl; [reflexivity|].
  destruct (q a) eqn:Eq; simpl.
  - now rewrite !filter_app, IH.
  - rewrite filter_app, IH.
    rewrite (filter_none P (map (pair a) (filter (on a) r))); [reflexivity|].
    intros [a' b] Hin. apply in_map_iff in Hin. destruct Hin as (b' & [= <- <-] & _).
    destruct (P (a, b')) eqn:E; [|reflexivity]. apply H in E. congruence.
Qed.

Lemma rls_own_rows u r :
  holds (eq3 N.eqb (Some u) (Some (ump.user_id r))) = true <-> ump.user_id r = u.
Proof.
  simpl. destruct (u =? ump.user_id r)%N eqn:E.
  - apply N.eqb_eq in E. split; congruence.
  - apply N.eqb_neq in E. split; [discriminate|congruence].
Qed.

(** X24. Row level security is transparent for the caller's own data. Read
    through the policy "Users can view own progress", both
    [get_user_modules] functions return for the signed-in user exactly
    what they return on the whole table. *)
Theorem rls_own_projection db u :
  DesignV2.get_user_modules (Rls.visible (Some u) db) u
  = DesignV2.get_user_modules db u /\
  DesignV1.get_user_modules (Rls.visible (Some u) db) u
  = DesignV1.get_user_modules db u.
Proof.
  assert (Hjoin :
    left_join (on_user u) (db_modules db)
              (Rls.view_own_progress (Some u) (db_progress db))
    = left_join (on_user u) (db_modules db) (db_progress db)).
  { apply left_join_same_partners. intros m. unfold Rls.view_own_progress.
    apply filter_filter_implied. intros r Hon.
    apply on_user_spec, is_row_of_spec in Hon. apply rls_own_rows. tauto. }
  split.
  - unfold DesignV2.get_user_modules, Rls.visible. simpl.
    fold (on_user u). now rewrite Hjoin.
  - unfold DesignV1.get_user_modules, Rls.visible. simpl.
    fold (on_user u). rewrite Hjoin. apply map_ext. intros [m r]. f_equal.
    unfold DesignV1.module_statuses_status. simpl.
    unfold Rls.view_own_progress.
    rewrite (inner_join_filter_implied
               (fun ump2 m2 => modules.id m2 =? ump.module_id ump2)).
    + reflexivity.
    + intros r2 m2 HP. apply rls_own_rows. cbn beta iota in HP.
      destruct (ump.user_id r2 =? u)%N eqn:E; [now apply N.eqb_eq|].
      discriminate.
Qed.

(** X25. Row level security hides the progress of everybody else. Read
    through the policy by a caller who is somebody else, or not signed in,
    both [get_user_modules] functions return for a user what they return
    for a user without any record. *)
Theorem rls_hides_other_users db auth_uid p :
  auth_uid <> Some p ->
  DesignV2.get_user_modules (Rls.visible auth_uid db) p
  = DesignV2.get_user_modules (mkdb (db_modules db) []) p /\
  DesignV1.get_user_modules (Rls.visible auth_uid db) p
  = DesignV1.get_user_modules (mkdb (db_modules db) []) p.
Proof.
  intros Hne.
  assert (Hexcl : forall r, ump.user_id r = p ->
    holds (eq3 N.eqb auth_uid (Some (ump.user_id r))) = false).
  { intros r Hr. destruct auth_uid as [a|]; [|reflexivity]. simpl.
    destruct (a =? ump.user_id r)%N eqn:E; [|reflexivity].
    apply N.eqb_eq in E. exfalso. apply Hne. congruence. }
  assert (Hjoin :
    left_join (on_user p) (db_modules db)
              (Rls.view_own_progress auth_uid (db_progress db))
    = left_join (on_user p) (db_modules db) []).
  { apply left_join_same_partners. intros m. unfold Rls.view_own_progress. simpl.
    apply filter_filter_excluded. intros r Hon.
    apply on_user_spec, is_row_of_spec in Hon. apply Hexcl. tauto. }
  split.
  - unfold DesignV2.get_user_modules, Rls.visible. simpl.
    fold (on_user p). now rewrite Hjoin.
  - unfold DesignV1.get_user_modules, Rls.visible. simpl.
    fold (on_user p). rewrite Hjoin. apply map_ext. intros [m r]. f_equal.
    unfold DesignV1.module_statuses_status. simpl.
    rewrite filter_none; [reflexivity|].
    intros [r2 m2] Hin. apply inner_join_In in Hin. destruct Hin as (Hr2 & _ & _).
    unfold Rls.view_own_progress in Hr2. apply filter_In in Hr2.
    destruct Hr2 as [_ Hvis].
    cbn beta iota.
    destruct (ump.user_id r2 =? p)%N eqn:E; [|reflexivity].
    apply N.eqb_eq in E. rewrite (Hexcl r2 E) in Hvis. discriminate.
Qed.

Lemma rls_hides_other_users_witness :
  DesignV2.get_user_modules (Rls.visible (Some user_b) db_two_users) user_a
  = DesignV2.get_user_modules (mkdb (db_modules db_two_users) []) user_a /\
  DesignV1.get_user_modules (Rls.visible (Some user_b) db_two_users) user_a
  = DesignV1.get_user_modules (mkdb (db_modules db_two_users) []) user_a.
Proof.
  apply (rls_hides_other_users db_two_users (Some user_b) user_a).
  discriminate.
Defined.

(** X26. Nobody completes a module for somebody else. Called by a caller
    who is not the user in [p_user_id], [complete_module] reads no record
    through the policy and returns at its guard, before any write. *)
Theorem rls_complete_module_for_other_user db auth_uid p m now :
  auth_uid <> Some p ->
  DesignV2.select_current_status (Rls.visible auth_uid db) p m = None /\
  DesignV2.complete_module (Rls.visible auth_uid db) p m now
  = Ok (Rls.visible auth_uid db).
Proof.
  intros Hne.
  assert (Hnone : DesignV2.select_current_status (Rls.visible auth_uid db) p m = None).
  { apply select_current_status_None. intros r Hr. simpl in Hr.
    unfold Rls.view_own_progress in Hr. apply filter_In in Hr.
    destruct Hr as [_ Hvis].
    destruct (is_row_of p m r) eqn:E; [|reflexivity].
    apply is_row_of_spec in E. destruct E as [Hu _]. exfalso.
    destruct auth_uid as [a|]; [|discriminate]. simpl in Hvis.
    destruct (a =? ump.user_id r)%N eqn:Ea; [|discriminate].
    apply N.eqb_eq in Ea. apply Hne. congruence. }
  split; [exact Hnone|]. apply complete_module_not_active. congruence.
Qed.

Lemma rls_complete_module_for_other_user_witness :
  DesignV2.select_current_status (Rls.visible (Some user_b) db_two_users) user_a 2
  = None /\
  DesignV2.complete_module (Rls.visible (Some user_b) db_two_users) user_a 2 40
  = Ok (Rls.visible (Some user_b) db_two_users).
Proof.
  apply (rls_complete_module_for_other_user db_two_users (Some user_b) user_a 2 40).
  discriminate.
Defined.

(** * Stored and computed status on consistent states *)

Lemma filter_map_key u x (f : ump.row -> ump.row) (l : list ump.row) :
  (forall r, is_row_of u x (f r) = is_row_of u x r) ->
  filter (is_row_of u x) (map f l) = map f (filter (is_row_of u x) l).
Proof.
  intros Hf. induction l as [|r l IH]; simpl; [reflexivity|].
  rewrite Hf. destruct (is_row_of u x r); simpl; now rewrite IH.
Qed.

(** What a successful call does to the first record of a key: the status
    stays, or it is 'done' and the key is the completed one, or it is
    'active'; a key without a record stays without one or gets an 'active'
    record. *)
Lemma complete_module_status_change db u m now db' u' x :
  DesignV2.complete_module db u m now = Ok db' ->
  DesignV2.select_current_status db' u' x = DesignV2.select_current_status db u' x
  \/ (DesignV2.select_current_status db' u' x = Some done /\ u' = u /\ x = m)
  \/ (DesignV2.select_current_status db' u' x = Some active).
Proof.
  intros Hok.
  assert (Ha : forall ps,
    select_into (map ump.status (filter (is_row_of u' x)
                                        (DesignV2.update_done u m now ps)))
    = select_into (map ump.status (filter (is_row_of u' x) ps))
    \/ (select_into (map ump.status (filter (is_row_of u' x)
                                            (DesignV2.update_done u m now ps)))
        = Some done /\ u' = u /\ x = m)).
  { intros ps. unfold DesignV2.update_done. rewrite filter_map_key.
    - destruct (filter (is_row_of u' x) ps) as [|r rs] eqn:Hf; [left; reflexivity|].
      simpl. destruct (is_row_of u m r) eqn:E; [|left; reflexivity].
      right. split; [reflexivity|].
      assert (Hin : In r (filter (is_row_of u' x) ps)) by (rewrite Hf; left; reflexivity).
      apply filter_In in Hin. destruct Hin as [_ E'].
      apply is_row_of_spec in E, E'. destruct E, E'. split; congruence.
    - intros r. destruct (is_row_of u m r); reflexivity. }
  assert (Hc : forall next ps,
    select_into (map ump.status (filter (is_row_of u' x)
                                        (DesignV2.insert_active u next now ps)))
    = select_into (map ump.status (filter (is_row_of u' x) ps))
    \/ select_into (map ump.status (filter (is_row_of u' x)
                                           (DesignV2.insert_active u next now ps)))
       = Some active).
  { intros next ps. unfold DesignV2.insert_active. destruct (existsb _ ps).
    - rewrite filter_map_key.
      + destruct (filter (is_row_of u' x) ps) as [|r rs]; [left; reflexivity|].
        simpl. destruct (_ && _); [right|left]; reflexivity.
      + intros r. destruct (_ && _); reflexivity.
    - rewrite filter_app. simpl.
      destruct (filter (is_row_of u' x) ps) as [|r rs]; simpl.
      + destruct (is_row_of u' x _); [right|left]; reflexivity.
      + left. reflexivity. }
  unfold DesignV2.select_current_status.
  destruct (complete_module_cases db u m now) as [[_ Hcase]|[_ Hcase]].
  - rewrite Hcase in Hok. injection Hok as <-. auto.
  - destruct (DesignV2.select_next_module_id (db_modules db) m) as [[next|]|e];
      rewrite Hcase in Hok; try discriminate; injection Hok as <-; simpl.
    + destruct (Hc next (DesignV2.update_done u m now (db_progress db))) as [-> | ->];
        [|auto].
      destruct (Ha (db_progress db)) as [-> | H]; auto.
    + destruct (Ha (db_progress db)) as [-> | H]; auto.
Qed.

(** The successor lookup over a catalog that satisfies its constraints. *)
Lemma select_next_module_id_found ms rr c :
  pk_modules ms -> uq_order_index ms -> int4_positions ms ->
  In rr ms -> In c ms ->
  modules.order_index c = modules.order_index rr + 1 ->
  DesignV2.select_next_module_id ms (modules.id rr) = Ok (Some (modules.id c)).
Proof.
  intros Hpk Huqo Hrange Hrr Hc Hord.
  unfold DesignV2.select_next_module_id.
  rewrite (filter_unique modules.id (fun x => modules.id x =? modules.id rr) ms rr
                         Hpk Hrr) by (intros y _; apply Z.eqb_eq).
  simpl. unfold int4pl. cbv zeta.
  pose proof (Hrange rr Hrr) as Hr1. pose proof (Hrange c Hc) as Hr2.
  replace ((int4_min <=? modules.order_index rr + 1)
           && (modules.order_index rr + 1 <=? int4_max)) with true
    by (symmetry; apply andb_true_iff; split; apply Z.leb_le; lia).
  simpl.
  rewrite (filter_unique modules.order_index _ ms c Huqo Hc).
  - reflexivity.
  - intros y _. simpl.
    destruct (modules.order_index y =? modules.order_index rr + 1) eqn:E.
    + apply Z.eqb_eq in E. split; [congruence|reflexivity].
    + apply Z.eqb_neq in E. split; [discriminate|congruence].
Qed.

(** Either every module before [x] is recorded as 'done', or one is not. *)
Lemma classic_all_done db u (x : modules.row) :
  (forall m', In m' (db_modules db) ->
              modules.order_index m' < modules.order_index x ->
              DesignV2.select_current_status db u (modules.id m') = Some done)
  \/
  (exists m', In m' (db_modules db) /\
              modules.order_index m' < modules.order_index x /\
              DesignV2.select_current_status db u (modules.id m') <> Some done).
Proof.
  induction (db_modules db) as [|a l IH].
  - left. intros m' [].
  - destruct IH as [IH|(m' & Hm' & Hlt & Hnd)].
    + destruct (Z_lt_dec (modules.order_index a) (modules.order_index x)) as [Hlt|Hge].
      * destruct (DesignV2.select_current_status db u (modules.id a))
          as [[| |]|] eqn:E.
        -- left. intros m' [<-|Hm'] Hlt'; auto.
        -- right. exists a. repeat split; simpl; auto. congruence.
        -- right. exists a. repeat split; simpl; auto. congruence.
        -- right. exists a. repeat split; simpl; auto. congruence.
      * left. intros m' [<-|Hm'] Hlt'; [lia|auto].
    + right. exists m'. repeat split; simpl; auto.
Qed.

(** [complete_module] keeps the frontier open over a catalog without
    gaps. *)
Lemma complete_module_frontier db u m now db' u0 :
  pk_modules (db_modules db) -> uq_order_index (db_modules db) ->
  int4_positions (db_modules db) -> no_gaps (db_modules db) ->
  progression_ok db u0 -> frontier_open db u0 ->
  DesignV2.complete_module db u m now = Ok db' ->
  frontier_open db' u0.
Proof.
  intros Hpk Huqo Hrange Hgap Hprog Hfront Hok.
  pose proof (complete_module_modules _ _ _ _ _ Hok) as Hms.
  (* an open record stays open *)
  assert (Hopen : forall x st,
    DesignV2.select_current_status db u0 x = Some st -> st <> locked ->
    exists st', DesignV2.select_current_status db' u0 x = Some st' /\ st' <> locked).
  { intros x st Hst Hnl.
    destruct (complete_module_status_change db u m now db' u0 x Hok)
      as [H|[[H _]|H]]; rewrite H; eauto; eexists; split; eauto; discriminate. }
  intros x Hx Havail. rewrite Hms in Hx.
  destruct (classic_all_done db u0 x) as [Hall|(m' & Hm' & Hlt & Hnd)].
  { (* available before the call already *)
    destruct (Hfront x Hx (or_intror Hall)) as (st & Hst & Hnl). eauto. }
  destruct Havail as [H1|Havail].
  { destruct (Hfront x Hx (or_introl H1)) as (st & Hst & Hnl). eauto. }
  (* some module before [x] has become 'done' by this call: it is [m] *)
  rewrite Hms in Havail. pose proof (Havail m' Hm' Hlt) as Hd'.
  destruct (complete_module_status_change db u m now db' u0 (modules.id m') Hok)
    as [H|[[_ [Hu Hm]]|H]]; [congruence| |congruence].
  subst u0.
  destruct (complete_module_cases db u m now) as [[_ Hc]|[Hact Hc]].
  { rewrite Hc in Hok. injection Hok as <-. congruence. }
  destruct (Hgap m' x Hm' Hx Hlt) as (c & Hc_in & Hc_ord).
  pose proof (select_next_module_id_found _ m' c Hpk Huqo Hrange Hm' Hc_in Hc_ord)
    as Hnext.
  rewrite Hm in Hnext. rewrite Hnext in Hc. rewrite Hc in Hok.
  injection Hok as Hdb'.
  assert (Hc_open : exists st, DesignV2.select_current_status db' u (modules.id c)
                               = Some st /\ st <> locked).
  { rewrite <- Hdb'. unfold DesignV2.select_current_status. simpl.
    destruct (insert_active_provisioned u (modules.id c) now
                (DesignV2.update_done u m now (db_progress db)))
      as (r & rs & -> & Hr).
    exists (ump.status r). split; [reflexivity|assumption]. }
  destruct (Z.eq_dec (modules.order_index x) (modules.order_index c)) as [Heq|Hneq].
  { assert (x = c) by (apply (NoDup_map_inj modules.order_index (db_modules db)); auto).
    subst x. exact Hc_open. }
  (* otherwise [c] is before [x], so it is 'done', and was before the call;
     then [m] was 'done' before the call, which it was not *)
  exfalso.
  assert (Hc_lt : modules.order_index c < modules.order_index x) by lia.
  pose proof (Havail c Hc_in Hc_lt) as Hc_done'.
  assert (Hc_done : DesignV2.select_current_status db u (modules.id c) = Some done).
  { destruct (complete_module_status_change db u m now db' u (modules.id c))
      as [H|[[_ [_ Hcm]]|H]].
    - rewrite Hc, <- Hdb'. reflexivity.
    - congruence.
    - exfalso. assert (c = m').
      { apply (NoDup_map_inj modules.id (db_modules db)); auto. congruence. }
      subst c. lia.
    - congruence. }
  destruct (select_current_status_Some _ _ _ _ Hc_done) as (rc & Hrc & Hrow & Hst).
  apply is_row_of_spec in Hrow. destruct Hrow as [Hurc Hmrc].
  assert (Hm_done : DesignV2.select_current_status db u (modules.id m') = Some done).
  { apply (Hprog rc c m'); auto; try congruence. lia. }
  congruence.
Qed.

(** On a state with a consistent progression and an open frontier the
    computed status of every module is the stored one. *)
Lemma projections_agree_on_consistent db u :
  pk_modules (db_modules db) -> uq_user_module (db_progress db) ->
  progression_ok db u -> frontier_open db u ->
  DesignV1.get_user_modules db u = DesignV2.get_user_modules db u.
Proof.
  intros Hpk Huq Hprog Hfront.
  unfold DesignV1.get_user_modules, DesignV2.get_user_modules.
  apply map_ext_in. intros [m r] Hin. apply In_order_by in Hin. fold (on_user u) in Hin.
  f_equal.
  destruct (left_join_status db u m r Huq Hin) as [Hsel _].
  pose proof Hin as Hin'. apply In_left_join in Hin'. destruct Hin' as [Hm Hr].
  pose proof (module_statuses_status_done db u m r) as Hdone.
  pose proof (module_statuses_status_active db u m r Hpk Huq) as Hactive.
  destruct r as [b|]; simpl in *.
  - destruct Hr as [Hb Hon]. apply on_user_spec, is_row_of_spec in Hon.
    destruct Hon as [Hub Hmb].
    destruct (ump.status b) eqn:Hst.
    + now apply Hdone.
    + apply Hactive. split; [discriminate|]. right. intros m' Hm' Hlt.
      apply (Hprog b m m'); auto; congruence.
    + assert (Hnd : DesignV1.module_statuses_status db u m (Some b) <> done)
        by (intros E; apply Hdone in E; discriminate).
      assert (Hna : DesignV1.module_statuses_status db u m (Some b) <> active).
      { intros E. apply Hactive in E. destruct E as [_ Havail].
        destruct (Hfront m Hm Havail) as (st & Hs & Hnl). congruence. }
      destruct (DesignV1.module_statuses_status db u m (Some b)); congruence.
  - assert (Hnd : DesignV1.module_statuses_status db u m None <> done)
      by (intros E; apply Hdone in E; discriminate).
    assert (Hna : DesignV1.module_statuses_status db u m None <> active).
    { intros E. apply Hactive in E. destruct E as [_ Havail].
      destruct (Hfront m Hm Havail) as (st & Hs & Hnl). congruence. }
    destruct (DesignV1.module_statuses_status db u m None); congruence.
Qed.

(** X27. On the states the design reaches the derivations agree. Over a
    catalog that satisfies its constraints and has no gap in its
    positions, from any state with a consistent progression and an open
    frontier for the user (the first module opened, for one), after any
    sequence of [completeModule] calls the correlated-subquery
    [get_user_modules] and the stored-status [get_user_modules] return the
    same rows. *)
Theorem projections_agree_after_run calls : forall db u,
  pk_modules (db_modules db) -> uq_order_index (db_modules db) ->
  int4_positions (db_modules db) -> no_gaps (db_modules db) ->
  uq_user_module (db_progress db) ->
  progression_ok db u -> frontier_open db u ->
  DesignV1.get_user_modules (DesignV2.run db calls) u
  = DesignV2.get_user_modules (DesignV2.run db calls) u.
Proof.
  unfold DesignV2.run.
  induction calls as [|[[u' m] now] calls IH];
    intros db u Hpk Huqo Hrange Hgap Huq Hprog Hfront; simpl.
  - now apply projections_agree_on_consistent.
  - unfold DesignV2.completeModule.
    destruct (DesignV2.complete_module db u' m now) as [db'|e] eqn:Hok; simpl.
    + pose proof (complete_module_modules _ _ _ _ _ Hok) as Hms.
      apply IH; try (rewrite Hms; assumption).
      * now apply (complete_module_uq db u' m now).
      * now apply (complete_module_progression db u' m now).
      * now apply (complete_module_frontier db u' m now).
    + now apply IH.
Qed.

Ltac in_seed H :=
  simpl in H; destruct H as [<-|[<-|[<-|[<-|[<-|[]]]]]].

Lemma projections_agree_after_run_witness :
  DesignV1.get_user_modules
    (DesignV2.run db_started [(user_a, 1, 20); (user_a, 3, 40); (user_a, 2, 50)])
    user_a
  = DesignV2.get_user_modules
      (DesignV2.run db_started [(user_a, 1, 20); (user_a, 3, 40); (user_a, 2, 50)])
      user_a.
Proof.
  apply (projections_agree_after_run
           [(user_a, 1, 20); (user_a, 3, 40); (user_a, 2, 50)] db_started user_a).
  - unfold pk_modules. simpl. nodup_concrete.
  - unfold uq_order_index. simpl. nodup_concrete.
  - intros x Hx. unfold int4_min, int4_max. in_seed Hx; simpl; lia.
  - intros a b Ha Hb Hlt. in_seed Ha; in_seed Hb; simpl in Hlt; try lia;
      simpl;
      first [ exists (modules.mk 2 "Переключение на себя"%string None 2);
              split; [tauto|reflexivity]
            | exists (modules.mk 3 "Источник вдохновения"%string None 3);
              split; [tauto|reflexivity]
            | exists (modules.mk 4 "Пространство идей"%string None 4);
              split; [tauto|reflexivity]
            | exists (modules.mk 5 "Финальный тест"%string None 5);
              split; [tauto|reflexivity] ].
  - unfold uq_user_module. simpl. nodup_concrete.
  - intros r m m' [<-|[]] _ _ Hm Hid Hm' Hlt. simpl in Hid.
    in_seed Hm; try discriminate. exfalso. simpl in Hlt.
    in_seed Hm'; simpl in Hlt; lia.
  - intros m Hm Havail. in_seed Hm.
    + exists active. split; [reflexivity|discriminate].
    + exfalso. destruct Havail as [H|H]; [discriminate|].
      specialize (H (modules.mk 1 "Welcome Journey"%string None 1)
                    (or_introl eq_refl)). simpl in H.
      assert (Hlt : 1 < 2) by lia. specialize (H Hlt). discriminate.
    + exfalso. destruct Havail as [H|H]; [discriminate|].
      specialize (H (modules.mk 1 "Welcome Journey"%string None 1)
                    (or_introl eq_refl)). simpl in H.
      assert (Hlt : 1 < 3) by lia. specialize (H Hlt). discriminate.
    + exfalso. destruct Havail as [H|H]; [discriminate|].
      specialize (H (modules.mk 1 "Welcome Journey"%string None 1)
                    (or_introl eq_refl)). simpl in H.
      assert (Hlt : 1 < 4) by lia. specialize (H Hlt). discriminate.
    + exfalso. destruct Havail as [H|H]; [discriminate|].
      specialize (H (modules.mk 1 "Welcome Journey"%string None 1)
                    (or_introl eq_refl)). simpl in H.
      assert (Hlt : 1 < 5) by lia. specialize (H Hlt). discriminate.
Defined.

(** * Both effects of a completion *)

(** Over a catalog without gaps the successor lookup of step (b) finds the
    next module in catalog order. *)
Lemma select_next_module_id_next_in_order ms r s :
  pk_modules ms -> uq_order_index ms -> int4_positions ms -> no_gaps ms ->
  In r ms -> next_in_order ms r s ->
  DesignV2.select_next_module_id ms (modules.id r) = Ok (Some (modules.id s)).
Proof.
  intros Hpk Huqo Hrange Hgap Hr (Hs & Hlt & Hmin).
  apply select_next_module_id_found; auto.
  destruct (Hgap r s Hr Hs Hlt) as (c & Hc & Hcord).
  assert (modules.order_index s <= modules.order_index c) by (apply Hmin; auto; lia).
  lia.
Qed.

(** Over a catalog that satisfies its constraints and has no gap, a call
    for an 'active' module that is followed by another module does both
    things and nothing else: the table afterwards is the upsert of step (c)
    for the next module in catalog order, applied to the UPDATE of step
    (a); the module is 'done' and the next module has a record that is
    'active' or 'done'. A call for a module that is not 'active' changes
    nothing ([complete_module_not_active]). *)
Lemma complete_module_both_effects db u now r s :
  pk_modules (db_modules db) -> uq_order_index (db_modules db) ->
  int4_positions (db_modules db) -> no_gaps (db_modules db) ->
  In r (db_modules db) -> next_in_order (db_modules db) r s ->
  DesignV2.select_current_status db u (modules.id r) = Some active ->
  DesignV2.completeModule db u (modules.id r) now =
  (mkdb (db_modules db)
        (DesignV2.insert_active u (modules.id s) now
           (DesignV2.update_done u (modules.id r) now (db_progress db))), None) /\
  DesignV2.select_current_status
    (fst (DesignV2.completeModule db u (modules.id r) now)) u (modules.id r)
  = Some done /\
  exists st,
    DesignV2.select_current_status
      (fst (DesignV2.completeModule db u (modules.id r) now)) u (modules.id s)
    = Some st /\ st <> locked.
Proof.
  intros Hpk Huqo Hrange Hgap Hr Hnext Hact.
  pose proof (select_next_module_id_next_in_order _ r s Hpk Huqo Hrange Hgap Hr Hnext)
    as Hn.
  destruct (complete_module_cases db u (modules.id r) now) as [[Hna _]|[_ Hc]];
    [congruence|].
  rewrite Hn in Hc. unfold DesignV2.completeModule. rewrite Hc. simpl.
  split; [reflexivity|]. split.
  - apply (complete_module_marks_done db u (modules.id r) now); assumption.
  - unfold DesignV2.select_current_status. simpl.
    destruct (insert_active_provisioned u (modules.id s) now
                (DesignV2.update_done u (modules.id r) now (db_progress db)))
      as (x & xs & -> & Hx).
    exists (ump.status x). split; [reflexivity|assumption].
Qed.

(** C4, at its failing input. The catalog satisfies every constraint of the
    schema and has the positions 1 and 3; the module at position 3 is the
    next one in catalog order after the module at position 1, which is
    'active' for the user. Step (b) looks for a module at position 1 + 1,
    finds none, and the call commits with the first effect alone: the
    module is 'done' and the next module has no record. *)
Theorem complete_module_gap_leaves_successor_closed now :
  pk_modules (db_modules db_gap) /\
  uq_order_index (db_modules db_gap) /\
  uq_user_module (db_progress db_gap) /\
  next_in_order (db_modules db_gap)
                (modules.mk 1 "Welcome Journey"%string None 1)
                (modules.mk 2 "Final test"%string None 3) /\
  DesignV2.select_current_status db_gap user_a 1 = Some active /\
  DesignV2.completeModule db_gap user_a 1 now =
  (mkdb (db_modules db_gap) [ump.mk user_a 1 done (Some now) (Some 10) 10 now],
   None) /\
  DesignV2.select_current_status
    (fst (DesignV2.completeModule db_gap user_a 1 now)) user_a 1 = Some done /\
  DesignV2.select_current_status
    (fst (DesignV2.completeModule db_gap user_a 1 now)) user_a 2 = None.
Proof.
  split; [unfold pk_modules; simpl; nodup_concrete|].
  split; [unfold uq_order_index; simpl; nodup_concrete|].
  split; [unfold uq_user_module; simpl; nodup_concrete|].
  split.
  - split; [right; left; reflexivity|]. split; [simpl; lia|].
    simpl. intros x [<-|[<-|[]]]; simpl; lia.
  - repeat split; reflexivity.
Qed.
